(** * dora / tools.py : the agent's tool functions

    A shallow embedding of [tools.py]: the six coroutines exposed to the
    agent runtime ([get_weather], [search_web], [send_email],
    [manage_notes], [manage_todo], [create_tool]) become Rocq functions
    in a state-and-exception monad.  Python [str] values are modelled as
    [string], i.e. as their UTF-8 byte sequences; substring search, split
    and replace on valid UTF-8 agree with the same operations on code
    points.  Calls to [logging] have no influence on results and are left
    out. *)

From stdpp Require Import base option list strings gmap pretty.
From Stdlib Require Import Ascii Lia.

Local Open Scope nat_scope.

(** ** Python string primitives *)

Module PyStr.

Definition nl : string := String "010"%char "".
Definition dq : string := String "034"%char "".

(** [p + b == s] for some [b]: [s.startswith(p)]. *)
Definition startswith (s p : string) : bool := String.prefix p s.
Global Arguments startswith : simpl never.

(** [p in s] *)
Fixpoint contains (p s : string) : bool :=
  startswith s p ||
  match s with
  | EmptyString => false
  | String _ s' => contains p s'
  end.

(** The number of positions of [s] at which [p] starts. *)
Fixpoint occurrences (p s : string) : nat :=
  match s with
  | EmptyString => 0
  | String _ s' => (if startswith s p then 1 else 0) + occurrences p s'
  end.

(** [s.replace(old, new)] for a non-empty [old]: scan from the left; at
    a match emit [new] and skip the matched characters ([skip] counts
    the characters of the current match still to be dropped). *)
Fixpoint replace_from (old new : string) (skip : nat) (s : string) : string :=
  match s with
  | EmptyString => EmptyString
  | String c s' =>
      match skip with
      | S k => replace_from old new k s'
      | O =>
          if startswith s old
          then new +:+ replace_from old new (String.length old - 1) s'
          else String c (replace_from old new 0 s')
      end
  end.

(** [s.replace("", new)] puts [new] before every character and at the end. *)
Fixpoint intersperse (new s : string) : string :=
  match s with
  | EmptyString => new
  | String c s' => new +:+ String c (intersperse new s')
  end.

Definition replace (old new s : string) : string :=
  match old with
  | EmptyString => intersperse new s
  | _ => replace_from old new 0 s
  end.

(** [s.split(c)] for a one-character separator. *)
Fixpoint split (c : ascii) (s : string) : list string :=
  match s with
  | EmptyString => [EmptyString]
  | String a s' =>
      if Ascii.eqb a c then EmptyString :: split c s'
      else match split c s' with
           | [] => [String a EmptyString]
           | h :: t => String a h :: t
           end
  end.

(** [sep.join(l)] *)
Fixpoint join (sep : string) (l : list string) : string :=
  match l with
  | [] => EmptyString
  | [x] => x
  | x :: l' => x +:+ sep +:+ join sep l'
  end.

(** Truthiness of an [Optional[str]]: [None] and [""] are falsy. *)
Definition truthy (o : option string) : bool :=
  match o with
  | Some (String _ _) => true
  | _ => false
  end.

(** [a or b] on [Optional[str]] values, with [b] a plain string. *)
Definition or_else (o : option string) (d : string) : string :=
  match o with
  | Some (String c s) => String c s
  | _ => d
  end.

(** How an f-string renders an [Optional[str]]. *)
Definition format (o : option string) : string :=
  match o with
  | Some s => s
  | None => "None"
  end.

End PyStr.

(** ** Exceptions and the effect monad *)

(** The classes of exception the module can meet; all of them derive from
    [Exception] ([BaseException]-only signals such as [KeyboardInterrupt]
    are not failures of a call and are outside the model). *)
Inductive exn_class :=
| Exception
| IndexError
| AttributeError
| NameError
| ValueError
| UnicodeDecodeError
| OSError
| FileNotFoundError
| SMTPException
| SMTPAuthenticationError
| HeaderParseError.

Record exn := mk_exn { class_of : exn_class; str : string }.

(** [issubclass(c, d)]: [FileNotFoundError < OSError],
    [SMTPAuthenticationError < SMTPException < OSError],
    [UnicodeDecodeError < ValueError], all [< Exception]. *)
Definition issubclass (c d : exn_class) : bool :=
  match d, c with
  | Exception, _ => true
  | IndexError, IndexError => true
  | AttributeError, AttributeError => true
  | NameError, NameError => true
  | ValueError, (ValueError | UnicodeDecodeError) => true
  | UnicodeDecodeError, UnicodeDecodeError => true
  | OSError, (OSError | FileNotFoundError | SMTPException | SMTPAuthenticationError) => true
  | FileNotFoundError, FileNotFoundError => true
  | SMTPException, (SMTPException | SMTPAuthenticationError) => true
  | SMTPAuthenticationError, SMTPAuthenticationError => true
  | HeaderParseError, HeaderParseError => true
  | _, _ => false
  end.

Definition isinstance (e : exn) (d : exn_class) : bool := issubclass (class_of e) d.

Inductive res (A : Type) :=
| Ok (a : A)
| Raise (e : exn).
Arguments Ok {A} a.
Arguments Raise {A} e.

(** A computation over a state [S] that returns or raises; the state
    reached when an exception is raised is kept (effects are not undone). *)
Definition M (S A : Type) : Type := S → res A * S.

Definition ret {S A} (a : A) : M S A := λ s, (Ok a, s).
Definition raise {S A} (e : exn) : M S A := λ s, (Raise e, s).
Definition bind {S A B} (m : M S A) (k : A → M S B) : M S B :=
  λ s, match m s with
       | (Ok a, s') => k a s'
       | (Raise e, s') => (Raise e, s')
       end.
Definition lift {S A} (r : res A) : M S A := λ s, (r, s).
Definition get {S} : M S S := λ s, (Ok s, s).
Definition put {S} (s : S) : M S unit := λ _, (Ok tt, s).

(** [try: m  except Exception as e: h e] *)
Definition try_except {S A} (m : M S A) (h : exn → M S A) : M S A :=
  λ s, match m s with
       | (Ok a, s') => (Ok a, s')
       | (Raise e, s') => h e s'
       end.

Notation "'let*' x := m 'in' k" := (bind m (λ x, k))
  (at level 10, x name, m at level 100, k at level 200).
Notation "m ;;; k" := (bind m (λ _, k))
  (at level 100, k at level 200, right associativity).

(** ** Reading a text file *)

(** What [open(path, "r").read()] makes of the bytes of a file, with
    UTF-8 as the encoding of the platform and POSIX line ends (the
    defaults where the agent runs): the bytes are decoded, and every
    line end (CR LF or a lone CR) comes back as LF. *)
Module TextIO.
Import PyStr.

Definition byte (c : ascii) : N := N_of_ascii c.

Definition is_continuation (c : ascii) : bool :=
  (128 <=? byte c)%N && (byte c <=? 191)%N.

(** Where decoding stops: first and one-past-last position of the
    offending bytes, the byte at the first, and the reason. *)
Record decode_error := mk_decode_error {
  err_start : nat;
  err_stop : nat;
  err_byte : ascii;
  err_reason : string
}.

Definition unexpected_end : string := "unexpected end of data".
Definition invalid_start : string := "invalid start byte".
Definition invalid_continuation : string := "invalid continuation byte".

(** The strict UTF-8 decoder, as far as its verdict goes: [None] for
    well-formed bytes, the first error otherwise.  Overlong forms,
    surrogates and code points past U+10FFFF are refused through the
    range of the second byte. *)
Fixpoint utf8_error (pos : nat) (s : string) : option decode_error :=
  match s with
  | EmptyString => None
  | String c1 s1 =>
      let b1 := byte c1 in
      if (b1 <? 128)%N then utf8_error (pos + 1) s1
      else if (b1 <? 194)%N then Some (mk_decode_error pos (pos + 1) c1 invalid_start)
      else if (b1 <? 224)%N then
        match s1 with
        | EmptyString => Some (mk_decode_error pos (pos + 1) c1 unexpected_end)
        | String c2 s2 =>
            if is_continuation c2 then utf8_error (pos + 2) s2
            else Some (mk_decode_error pos (pos + 1) c1 invalid_continuation)
        end
      else if (b1 <? 240)%N then
        match s1 with
        | EmptyString => Some (mk_decode_error pos (pos + 1) c1 unexpected_end)
        | String c2 s2 =>
            if negb (is_continuation c2)
               || (if (byte c2 <? 160)%N then (b1 =? 224)%N else (b1 =? 237)%N)
            then Some (mk_decode_error pos (pos + 1) c1 invalid_continuation)
            else
              match s2 with
              | EmptyString => Some (mk_decode_error pos (pos + 2) c1 unexpected_end)
              | String c3 s3 =>
                  if is_continuation c3 then utf8_error (pos + 3) s3
                  else Some (mk_decode_error pos (pos + 2) c1 invalid_continuation)
              end
        end
      else if (b1 <? 245)%N then
        match s1 with
        | EmptyString => Some (mk_decode_error pos (pos + 1) c1 unexpected_end)
        | String c2 s2 =>
            if negb (is_continuation c2)
               || (if (byte c2 <? 144)%N then (b1 =? 240)%N else (b1 =? 244)%N)
            then Some (mk_decode_error pos (pos + 1) c1 invalid_continuation)
            else
              match s2 with
              | EmptyString => Some (mk_decode_error pos (pos + 2) c1 unexpected_end)
              | String c3 s3 =>
                  if negb (is_continuation c3)
                  then Some (mk_decode_error pos (pos + 2) c1 invalid_continuation)
                  else
                    match s3 with
                    | EmptyString => Some (mk_decode_error pos (pos + 3) c1 unexpected_end)
                    | String c4 s4 =>
                        if is_continuation c4 then utf8_error (pos + 4) s4
                        else Some (mk_decode_error pos (pos + 3) c1 invalid_continuation)
                    end
              end
        end
      else Some (mk_decode_error pos (pos + 1) c1 invalid_start)
  end.

Definition hex_digit (n : N) : ascii :=
  if (n <? 10)%N then ascii_of_N (48 + n) else ascii_of_N (87 + n).

(** [f"{b:02x}"] *)
Definition hex2 (c : ascii) : string :=
  String (hex_digit (byte c / 16)) (String (hex_digit (byte c mod 16)) EmptyString).

(** [str(e)] for the [UnicodeDecodeError] of the codec. *)
Definition decode_error_text (e : decode_error) : string :=
  if decide (err_stop e = err_start e + 1)
  then "'utf-8' codec can't decode byte 0x" +:+ hex2 (err_byte e) +:+
       " in position " +:+ pretty (err_start e) +:+ ": " +:+ err_reason e
  else "'utf-8' codec can't decode bytes in position " +:+ pretty (err_start e) +:+
       "-" +:+ pretty (err_stop e - 1) +:+ ": " +:+ err_reason e.

Definition decode (bytes : string) : res string :=
  match utf8_error 0 bytes with
  | None => Ok bytes
  | Some e => Raise (mk_exn UnicodeDecodeError (decode_error_text e))
  end.

Definition CR : ascii := "013"%char.
Definition LF : ascii := "010"%char.

(** Universal newlines: CR LF and a lone CR are read as LF. *)
Fixpoint universal_newlines (s : string) : string :=
  match s with
  | EmptyString => EmptyString
  | String c s' =>
      if Ascii.eqb c CR then
        String LF
          match s' with
          | String c' s'' =>
              if Ascii.eqb c' LF then universal_newlines s'' else universal_newlines s'
          | EmptyString => EmptyString
          end
      else String c (universal_newlines s')
  end.

(** The text [read()] returns for a file holding [bytes]. *)
Definition read_text (bytes : string) : res string :=
  match decode bytes with
  | Ok text => Ok (universal_newlines text)
  | Raise e => Raise e
  end.

End TextIO.

(** ** The registrar: [create_tool] *)

Module Registrar.
Import PyStr.

(** What happens to files, in order. *)
Inductive event :=
| EvAppend (path text : string)
| EvRead (path : string)
| EvWrite (path text : string).

(** The working directory (path to the bytes of the file) and the
    file operations done so far. *)
Record world := mk_world { files : gmap string string; log : list event }.

Definition apply_event (ev : event) (fs : gmap string string) : gmap string string :=
  match ev with
  | EvAppend path text => <[path := default "" (fs !! path) +:+ text]> fs
  | EvRead _ => fs
  | EvWrite path text => <[path := text]> fs
  end.

(** The directory after the file operations [evs], oldest first. *)
Definition replay (evs : list event) (fs : gmap string string) : gmap string string :=
  foldl (λ fs ev, apply_event ev fs) fs evs.

Definition perform (ev : event) (w : world) : world :=
  {| files := apply_event ev (files w); log := log w ++ [ev] |}.

(** [with open(path, "a") as f: f.write(text)]; creates a missing file. *)
Definition append_file (path text : string) : M world unit :=
  λ w, (Ok tt, perform (EvAppend path text) w).

(** [with open(path, "r") as f: f.read()]: the bytes of the file are
    decoded and their line ends translated; bytes that do not decode
    raise, and a read that fails adds nothing to the record. *)
Definition read_file (path : string) : M world string :=
  λ w, match files w !! path with
       | Some bytes =>
           match TextIO.read_text bytes with
           | Ok text => (Ok text, perform (EvRead path) w)
           | Raise e => (Raise e, w)
           end
       | None =>
           (Raise (mk_exn FileNotFoundError
                     ("[Errno 2] No such file or directory: '" +:+ path +:+ "'")), w)
       end.

(** [with open(path, "w") as f: f.write(text)]; with POSIX line ends
    the text is written as it is. *)
Definition write_file (path text : string) : M world unit :=
  λ w, (Ok tt, perform (EvWrite path text) w).

(** [api_host or api_url.split('/')[2]] *)
Definition host_value (api_url api_host : option string) : res string :=
  match api_host with
  | Some (String c h) => Ok (String c h)
  | _ =>
      match api_url with
      | None => Raise (mk_exn AttributeError "'NoneType' object has no attribute 'split'")
      | Some url =>
          match split "/" url !! 2 with
          | Some h => Ok h
          | None => Raise (mk_exn IndexError "list index out of range")
          end
      end
  end.

Definition placeholder_url : string := "https://example.com/api".

(** The host entry of the generated headers dict. *)
Definition host_header (host : string) : string :=
  dq +:+ "X-RapidAPI-Host" +:+ dq +:+ ": " +:+ dq +:+ host +:+ dq.

(** The text of the f-string template once its five fields are known. *)
Definition template (function_name purpose url api_key_env host : string) : string :=
  nl +:+ "@function_tool()" +:+ nl +:+
  "async def " +:+ function_name +:+ "(context: RunContext, query: str) -> str:" +:+ nl +:+
  "    " +:+ dq +:+ dq +:+ dq +:+ nl +:+
  "    " +:+ purpose +:+ nl +:+
  "    " +:+ dq +:+ dq +:+ dq +:+ nl +:+
  "    import requests" +:+ nl +:+
  "    url = " +:+ dq +:+ url +:+ dq +:+ nl +:+
  "    headers = {" +:+ nl +:+
  "        " +:+ dq +:+ "X-RapidAPI-Key" +:+ dq +:+ ": os.getenv(" +:+ dq +:+ api_key_env +:+ dq +:+ ")," +:+ nl +:+
  "        " +:+ host_header host +:+ nl +:+
  "    }" +:+ nl +:+
  "    try:" +:+ nl +:+
  "        response = requests.get(url, headers=headers)" +:+ nl +:+
  "        data = response.json()" +:+ nl +:+
  "        return str(data)" +:+ nl +:+
  "    except Exception as e:" +:+ nl +:+
  "        return f" +:+ dq +:+ "❌ Error fetching data: {e}" +:+ dq +:+ nl.

(** The f-string bound to [function_code]: the fields are evaluated left to
    right and only the last one, the host, can raise. *)
Definition function_code (function_name purpose : string)
    (api_url api_host api_key_env : option string) : res string :=
  match host_value api_url api_host with
  | Ok host =>
      Ok (template function_name purpose (or_else api_url placeholder_url)
            (format api_key_env) host)
  | Raise e => Raise e
  end.

Definition import_anchor : string := "from tools import".
Definition list_anchor : string := "tools=[".

(** Step 2 of [create_tool] on the text of agent.py. *)
Definition patch_agent (function_name agent_code : string) : string :=
  let agent_code :=
    if negb (contains ("from tools import " +:+ function_name) agent_code)
    then replace import_anchor ("from tools import " +:+ function_name +:+ ",") agent_code
    else agent_code in
  let agent_code :=
    if negb (contains function_name agent_code)
    then replace list_anchor
           ("tools=[" +:+ nl +:+ "                " +:+ function_name +:+ ",") agent_code
    else agent_code in
  agent_code.

Definition success_message (function_name : string) : string :=
  "✅ Function `" +:+ function_name +:+ "` created and registered successfully.".

Definition failure_message (e : exn) : string :=
  "❌ Failed to create function: " +:+ str e.

Definition create_tool_body (function_name purpose : string)
    (api_url api_host api_key_env : option string) : M world string :=
  let tools_file := "tools.py" in
  let agent_file := "agent.py" in
  let* function_code :=
    lift (function_code function_name purpose api_url api_host api_key_env) in
  append_file tools_file (function_code +:+ nl) ;;;
  let* agent_code := read_file agent_file in
  write_file agent_file (patch_agent function_name agent_code) ;;;
  ret (success_message function_name).

Definition create_tool (function_name purpose : string)
    (api_url api_host api_key_env : option string) : M world string :=
  try_except
    (create_tool_body function_name purpose api_url api_host api_key_env)
    (λ e, ret (failure_message e)).

(** The default of the last parameter. *)
Definition default_api_key_env : option string := Some "RAPIDAPI_KEY".

(** A working directory to try calls on: a store with one line and a
    roster with an import line and a list literal. *)
Definition example_agent : string :=
  "from tools import get_weather, search_web" +:+ nl +:+
  "agent = Agent(tools=[get_weather, search_web])" +:+ nl.

Definition example_world : world :=
  {| files := <["agent.py" := example_agent]> (<["tools.py" := "import os" +:+ nl]> ∅);
     log := [] |}.

Definition example_url : string := "https://api.example.com/v1/data".

End Registrar.

(** ** The in-memory lists: [manage_notes] and [manage_todo] *)

Module Lists.
Import PyStr.

(** A dict [{"task": ..., "done": ...}]. *)
Record todo_item := mk_item { task : string; done : bool }.

Global Instance todo_item_eq_dec : EqDecision todo_item.
Proof. solve_decision. Defined.

(** The module-level names the two functions read.  The module binds
    [todo_list] (to [[]]) and never binds [notes_memory]: an unbound
    name is [None]. *)
Record globals := mk_globals {
  notes_memory : option (list string);
  todo_list : list todo_item
}.

(** The names as the module leaves them once it is loaded. *)
Definition module_globals : globals :=
  {| notes_memory := None; todo_list := [] |}.

(** [l.remove(x)]: drops the first element equal to [x]; [ValueError]
    when there is none. *)
Fixpoint list_remove {A} `{EqDecision A} (x : A) (l : list A) : option (list A) :=
  match l with
  | [] => None
  | y :: l' => if decide (y = x) then Some l' else cons y <$> list_remove x l'
  end.

Definition remove_raises : exn := mk_exn ValueError "list.remove(x): x not in list".

(** [x in l] *)
Definition list_contains {A} `{EqDecision A} (x : A) (l : list A) : bool :=
  bool_decide (x ∈ l).

(** *** Notes *)

(** Evaluating the name [notes_memory]. *)
Definition load_notes : M globals (list string) :=
  λ g, match notes_memory g with
       | Some l => (Ok l, g)
       | None => (Raise (mk_exn NameError "name 'notes_memory' is not defined"), g)
       end.

(** Mutating the list object the name is bound to. *)
Definition store_notes (l : list string) : M globals unit :=
  λ g, (Ok tt, {| notes_memory := Some l; todo_list := todo_list g |}).

Definition manage_notes_body (action : string) (note : option string) : M globals string :=
  if decide (action = "add") then
    match note with
    | Some (String c n' as n) =>
        let* l := load_notes in
        store_notes (l ++ [n]) ;;;
        ret ("✅ Note added: '" +:+ n +:+ "'")
    | _ => ret "Please specify a note to add."
    end
  else if decide (action = "remove") then
    match note with
    | Some (String c n' as n) =>
        let* l := load_notes in
        if list_contains n l then
          let* l := load_notes in
          match list_remove n l with
          | Some l' => store_notes l' ;;; ret ("🗑️ Note removed: '" +:+ n +:+ "'")
          | None => raise remove_raises
          end
        else ret ("⚠️ Note not found: '" +:+ n +:+ "'")
    | _ => ret "Please specify a note to remove."
    end
  else if decide (action = "list") then
    let* l := load_notes in
    match l with
    | [] => ret "📝 Your to-do list is empty."
    | _ =>
        let* l := load_notes in
        let formatted := join nl (imap (λ i n, pretty (i + 1) +:+ ". " +:+ n) l) in
        ret ("📋 Your notes:" +:+ nl +:+ formatted)
    end
  else if decide (action = "clear") then
    let* _ := load_notes in
    store_notes [] ;;;
    ret "🧹 All notes cleared."
  else ret "⚠️ Invalid action. Use 'add', 'remove', 'list', or 'clear'.".

Definition manage_notes (action : string) (note : option string) : M globals string :=
  try_except (manage_notes_body action note)
    (λ e, ret ("❌ Error managing notes: " +:+ str e)).

(** *** To-do list *)

Definition store_todo (l : list todo_item) : M globals unit :=
  λ g, (Ok tt, {| notes_memory := notes_memory g; todo_list := l |}).

(** [for t in todo_list: if t["task"] == task: ...]: the first item
    with that text. *)
Definition first_task (tk : string) (l : list todo_item) : option todo_item :=
  List.find (λ t, bool_decide (task t = tk)) l.

(** [t["done"] = True] on the first item with that text.  Every item
    of the list is a dict of its own (made by one "add"), so the
    assignment changes that one position. *)
Fixpoint mark_done (tk : string) (l : list todo_item) : option (list todo_item) :=
  match l with
  | [] => None
  | t :: l' =>
      if decide (task t = tk)
      then Some ({| task := task t; done := true |} :: l')
      else cons t <$> mark_done tk l'
  end.

Definition show_item (i : nat) (t : todo_item) : string :=
  pretty (i + 1) +:+ ". [" +:+ (if done t then "✔️" else "❌") +:+ "] " +:+ task t.

Definition manage_todo_body (action : string) (tsk : option string) : M globals string :=
  if decide (action = "add") then
    match tsk with
    | Some (String c t' as t) =>
        let* g := get in
        store_todo (todo_list g ++ [{| task := t; done := false |}]) ;;;
        ret ("✅ Task added: '" +:+ t +:+ "'")
    | _ => ret "Please specify a task to add."
    end
  else if decide (action = "remove") then
    match tsk with
    | Some (String c t' as t) =>
        let* g := get in
        match first_task t (todo_list g) with
        | Some item =>
            match list_remove item (todo_list g) with
            | Some l' => store_todo l' ;;; ret ("🗑️ Task removed: '" +:+ t +:+ "'")
            | None => raise remove_raises
            end
        | None => ret ("⚠️ Task not found: '" +:+ t +:+ "'")
        end
    | _ => ret "Please specify a task to remove."
    end
  else if decide (action = "complete") then
    match tsk with
    | Some (String c t' as t) =>
        let* g := get in
        match mark_done t (todo_list g) with
        | Some l' => store_todo l' ;;; ret ("✅ Task completed: '" +:+ t +:+ "'")
        | None => ret ("⚠️ Task not found: '" +:+ t +:+ "'")
        end
    | _ => ret "Please specify a task to mark as completed."
    end
  else if decide (action = "list") then
    let* g := get in
    match todo_list g with
    | [] => ret "📝 Your to-do list is empty."
    | l =>
        let formatted := join nl (imap show_item l) in
        ret ("📋 Your To-Do List:" +:+ nl +:+ formatted)
    end
  else if decide (action = "clear") then
    store_todo [] ;;;
    ret "🧹 All tasks cleared."
  else ret "⚠️ Invalid action. Use 'add', 'remove', 'list', 'complete', or 'clear'.".

Definition manage_todo (action : string) (tsk : option string) : M globals string :=
  try_except (manage_todo_body action tsk)
    (λ e, ret ("❌ Error managing to-do list: " +:+ str e)).

(** The state a call leaves behind. *)
Definition then_ {A} (m : M globals A) (g : globals) : globals := snd (m g).

(** The calls the agent runtime can make on the two list managers, and
    a session of such calls, one after the other. *)
Inductive tool_call :=
| Notes (action : string) (note : option string)
| Todo (action : string) (tsk : option string).

Definition run_call (c : tool_call) (g : globals) : globals :=
  match c with
  | Notes action note => then_ (manage_notes action note) g
  | Todo action tsk => then_ (manage_todo action tsk) g
  end.

Definition run_calls (cs : list tool_call) (g : globals) : globals :=
  foldl (λ g c, run_call c g) g cs.

End Lists.

(** ** The mail sender: [send_email] *)

Module Email.
Import PyStr.

(** The message as the body puts it together: the headers [From],
    [To], [Subject], [Cc] when a CC address is given, and the plain
    text part. *)
Record mime_message := mk_message {
  msg_from : string;
  msg_to : string;
  msg_subject : string;
  msg_cc : option string;
  msg_body : string
}.

(** The calls made on [smtplib]. *)
Inductive smtp_call :=
| Connect (host : string) (port : nat)
| StartTLS
| Login (user password : string)
| Sendmail (from_addr : string) (to_addrs : list string)
| Quit.

(** The process environment, how the mail server answers each call
    ([None]: it goes through), the calls made so far, and what
    [msg.as_string()] of the [email] package does with a message
    ([None]: it renders it; the package raises, for one,
    [HeaderParseError] on a header value that holds an embedded
    header). *)
Record world := mk_world {
  environ : gmap string string;
  smtp : smtp_call → option exn;
  calls : list smtp_call;
  as_string : mime_message → option exn
}.

(** [os.getenv(name)] *)
Definition getenv (name : string) : M world (option string) :=
  λ w, (Ok (environ w !! name), w).

Definition call (c : smtp_call) : M world unit :=
  λ w, let w' := {| environ := environ w; smtp := smtp w; calls := calls w ++ [c];
                    as_string := as_string w |} in
       match smtp w c with
       | None => (Ok tt, w')
       | Some e => (Raise e, w')
       end.

(** [text = msg.as_string()] *)
Definition render (msg : mime_message) : M world unit :=
  λ w, match as_string w msg with
       | None => (Ok tt, w)
       | Some e => (Raise e, w)
       end.

Definition credentials_message : string :=
  "Email sending failed: Gmail credentials not configured.".
Definition authentication_message : string :=
  "Email sending failed: Authentication error. Please check your Gmail credentials.".
Definition smtp_message (e : exn) : string :=
  "Email sending failed: SMTP error - " +:+ str e.
Definition generic_message (e : exn) : string :=
  "An error occurred while sending email: " +:+ str e.

Definition send_email_body (to_email subject message : string)
    (cc_email : option string) : M world string :=
  let smtp_server := "smtp.gmail.com" in
  let smtp_port := 587 in
  let* gmail_user := getenv "GMAIL_USER" in
  let* gmail_password := getenv "GMAIL_PASS" in
  match gmail_user, gmail_password with
  | Some (String _ _ as user), Some (String _ _ as password) =>
      let cc :=
        match cc_email with
        | Some (String _ _ as cc) => Some cc
        | _ => None
        end in
      let msg := {| msg_from := user; msg_to := to_email; msg_subject := subject;
                    msg_cc := cc; msg_body := message |} in
      let recipients :=
        match cc_email with
        | Some (String _ _ as cc) => [to_email; cc]
        | _ => [to_email]
        end in
      call (Connect smtp_server smtp_port) ;;;
      call StartTLS ;;;
      call (Login user password) ;;;
      render msg ;;;
      call (Sendmail user recipients) ;;;
      call Quit ;;;
      ret ("Email sent successfully to " +:+ to_email)
  | _, _ => ret credentials_message
  end.

(** What the [except] clauses make of an exception, by its class. *)
Definition message_for (e : exn) : string :=
  match class_of e with
  | SMTPAuthenticationError => authentication_message
  | SMTPException => smtp_message e
  | _ => generic_message e
  end.

(** The three [except] clauses, tried in order. *)
Definition send_email_handler (e : exn) : M world string :=
  if isinstance e SMTPAuthenticationError then ret authentication_message
  else if isinstance e SMTPException then ret (smtp_message e)
  else ret (generic_message e).

Definition send_email (to_email subject message : string)
    (cc_email : option string) : M world string :=
  try_except (send_email_body to_email subject message cc_email) send_email_handler.

(** A server, for trying calls, that refuses every login. *)
Definition refusal : exn :=
  mk_exn SMTPAuthenticationError "(535, b'5.7.8 Username and Password not accepted.')".

Definition refusing_server (c : smtp_call) : option exn :=
  match c with
  | Login _ _ => Some refusal
  | _ => None
  end.

(** An [email] package that renders every message. *)
Definition rendering (msg : mime_message) : option exn := None.

Definition example_world : world :=
  {| environ := <["GMAIL_PASS" := "secret"]> (<["GMAIL_USER" := "me@gmail.com"]> ∅);
     smtp := refusing_server;
     calls := [];
     as_string := rendering |}.

End Email.

(** ** The two lookups: [get_weather] and [search_web] *)

Module Web.
Import PyStr.

Record response := mk_response { status_code : nat; text : string }.

(** The outside world: what [requests.get] gives for a URL and what
    [DuckDuckGoSearchRun().run] gives for a query. *)
Record net := mk_net {
  requests_get : string → res response;
  search_run : string → res string
}.

Section Weather.
(** [str.strip], which the model takes as given. *)
Variable strip : string → string.

Definition get_weather_body (city : string) : M net string :=
  let* response :=
    (λ n, (requests_get n ("https://wttr.in/" +:+ city +:+ "?format=3"), n)) in
  if decide (status_code response = 200)
  then ret (strip (text response))
  else ret ("Could not retrieve weather for " +:+ city +:+ ".").

Definition get_weather (city : string) : M net string :=
  try_except (get_weather_body city)
    (λ e, ret ("An error occurred while retrieving weather for " +:+ city +:+ ".")).
End Weather.

Definition search_web_body (query : string) : M net string :=
  let* results := (λ n, (search_run n query, n)) in
  ret results.

Definition search_web (query : string) : M net string :=
  try_except (search_web_body query)
    (λ e, ret ("An error occurred while searching the web for '" +:+ query +:+ "'.")).

End Web.

(** ** Sessions: calls made one after the other *)

Module Sessions.
Import PyStr.

(** [c in s] for a single character. *)
Fixpoint mem_char (c : ascii) (s : string) : bool :=
  match s with
  | EmptyString => false
  | String a s' => Ascii.eqb a c || mem_char c s'
  end.

(** [s * n]: [n] copies of a text. *)
Fixpoint copies (n : nat) (s : string) : string :=
  match n with
  | O => EmptyString
  | S k => s +:+ copies k s
  end.

(** The text of tools.py, a missing file counting as empty (which is
    what opening it for appending makes of it). *)
Definition store (w : Registrar.world) : string :=
  default "" (Registrar.files w !! "tools.py").

(** The arguments of one call of [create_tool]. *)
Record request := mk_request {
  function_name : string;
  purpose : string;
  api_url : option string;
  api_host : option string;
  api_key_env : option string
}.

Definition register (r : request) (w : Registrar.world) : Registrar.world :=
  (Registrar.create_tool (function_name r) (purpose r) (api_url r) (api_host r)
     (api_key_env r) w).2.

Definition register_all (rs : list request) (w : Registrar.world) : Registrar.world :=
  foldl (λ w r, register r w) w rs.

(** [recipients] as [send_email] builds it, and the calls it makes on
    a server that lets every one of them through. *)
Definition recipients (to_email : string) (cc_email : option string) : list string :=
  match cc_email with
  | Some (String _ _ as cc) => [to_email; cc]
  | _ => [to_email]
  end.

(** The message [send_email] puts together from its arguments. *)
Definition message_of (user to_email subject message : string)
    (cc_email : option string) : Email.mime_message :=
  {| Email.msg_from := user;
     Email.msg_to := to_email;
     Email.msg_subject := subject;
     Email.msg_cc := match cc_email with
                     | Some (String _ _ as cc) => Some cc
                     | _ => None
                     end;
     Email.msg_body := message |}.

Definition smtp_session (user password to_email : string) (cc_email : option string)
    : list Email.smtp_call :=
  [Email.Connect "smtp.gmail.com" 587; Email.StartTLS; Email.Login user password;
   Email.Sendmail user (recipients to_email cc_email); Email.Quit].

(** Making calls in order on a server until one is refused: the calls
    made (the refused one included) and the refusal, if any. *)
Fixpoint until_refused (smtp : Email.smtp_call → option exn) (cs : list Email.smtp_call)
    : list Email.smtp_call * option exn :=
  match cs with
  | [] => ([], None)
  | c :: cs' =>
      match smtp c with
      | Some e => ([c], Some e)
      | None => let '(made, r) := until_refused smtp cs' in (c :: made, r)
      end
  end.

(** A server that lets everything through, and one that takes the
    mail but fails on [quit]. *)
Definition accepting_server (c : Email.smtp_call) : option exn := None.

Definition quit_failing_server (c : Email.smtp_call) : option exn :=
  match c with
  | Email.Quit => Some (mk_exn SMTPException "Connection unexpectedly closed")
  | _ => None
  end.

Definition tls_refusing_server (c : Email.smtp_call) : option exn :=
  match c with
  | Email.StartTLS => Some (mk_exn SMTPException "STARTTLS extension not supported by server.")
  | _ => None
  end.

(** An [email] package that refuses a [To] header with a line break
    in it, as it does for an embedded header. *)
Definition header_checking (msg : Email.mime_message) : option exn :=
  if mem_char "010" (Email.msg_to msg)
  then Some (mk_exn HeaderParseError
               ("header value appears to contain an embedded header: '" +:+
                replace nl "\n" (Email.msg_to msg) +:+ "'"))
  else None.

Definition mail_world (server : Email.smtp_call → option exn) : Email.world :=
  {| Email.environ := <["GMAIL_PASS" := "secret"]> (<["GMAIL_USER" := "me@gmail.com"]> ∅);
     Email.smtp := server;
     Email.calls := [];
     Email.as_string := Email.rendering |}.

(** The texts of the to-do list, in order. *)
Definition texts (g : Lists.globals) : list string := Lists.task <$> Lists.todo_list g.

End Sessions.

(** * Properties *)

(** ** Strings *)

Module PyStrFacts.
Import PyStr.

Lemma app_nil_l (b : string) : "" +:+ b = b.
Proof. reflexivity. Qed.

Lemma app_cons (x : ascii) (a b : string) :
  String x a +:+ b = String x (a +:+ b).
Proof. reflexivity. Qed.

Lemma app_assoc (a b c : string) : (a +:+ b) +:+ c = a +:+ b +:+ c.
Proof.
  induction a as [|x a IH]; [reflexivity|].
  rewrite !app_cons. now rewrite IH.
Qed.

Lemma app_nil_r (a : string) : a +:+ "" = a.
Proof.
  induction a as [|x a IH]; [reflexivity|].
  rewrite app_cons. now rewrite IH.
Qed.

Lemma startswith_app (p b : string) : startswith (p +:+ b) p = true.
Proof.
  unfold startswith. induction p as [|x p IH].
  - rewrite app_nil_l. now destruct b.
  - rewrite app_cons. simpl.
    destruct (ascii_dec x x) as [_|Hne]; [exact IH | now destruct Hne].
Qed.

Lemma startswith_inv (s p : string) :
  startswith s p = true → ∃ b, s = p +:+ b.
Proof.
  unfold startswith. revert s. induction p as [|x p IH]; intros s H.
  - now exists s.
  - destruct s as [|y s]; simpl in H; [discriminate|].
    destruct (ascii_dec x y) as [->|_]; [|discriminate].
    destruct (IH _ H) as [b ->]. now exists b.
Qed.

Lemma contains_startswith (s p : string) :
  startswith s p = true → contains p s = true.
Proof. destruct s; simpl; intros ->; reflexivity. Qed.

Lemma contains_app (a p b : string) : contains p (a +:+ p +:+ b) = true.
Proof.
  induction a as [|x a IH].
  - rewrite app_nil_l. apply contains_startswith, startswith_app.
  - rewrite app_cons. simpl. rewrite IH. apply orb_true_r.
Qed.

Lemma contains_inv (p s : string) :
  contains p s = true → ∃ a b, s = a +:+ p +:+ b.
Proof.
  induction s as [|x s IH]; simpl; intros H.
  - rewrite orb_false_r in H. apply startswith_inv in H as [b Hb].
    now exists "", b.
  - apply orb_true_iff in H as [H|H].
    + apply startswith_inv in H as [b Hb]. now exists "", b.
    + destruct (IH H) as (a & b & ->). now exists (String x a), b.
Qed.

Lemma contains_here (p b : string) : contains p (p +:+ b) = true.
Proof. apply (contains_app "" p b). Qed.

Lemma contains_skip (p x s : string) :
  contains p s = true → contains p (x +:+ s) = true.
Proof.
  intros H. apply contains_inv in H as (a & b & ->).
  rewrite <- app_assoc. apply contains_app.
Qed.

(** A substring of a substring is a substring. *)
Lemma contains_trans (p q s : string) :
  contains p q = true → contains q s = true → contains p s = true.
Proof.
  intros Hp Hq.
  apply contains_inv in Hp as (a & b & ->).
  apply contains_inv in Hq as (a' & b' & ->).
  rewrite !app_assoc, <- (app_assoc a' a). apply contains_app.
Qed.

Lemma contains_false_tail (p : string) (c : ascii) (s : string) :
  contains p (String c s) = false →
  startswith (String c s) p = false ∧ contains p s = false.
Proof. simpl. intros H. now apply orb_false_iff in H. Qed.

(** [replace] leaves a text without the anchor as it is. *)
Lemma replace_from_absent (old new s : string) :
  contains old s = false → replace_from old new 0 s = s.
Proof.
  induction s as [|c s IH]; [reflexivity|].
  intros H. apply contains_false_tail in H as [H1 H2].
  cbn [replace_from]. rewrite H1, (IH H2). reflexivity.
Qed.

Lemma replace_absent (old new s : string) :
  old ≠ "" → contains old s = false → replace old new s = s.
Proof.
  intros Hne H. destruct old; [now destruct Hne|].
  now apply replace_from_absent.
Qed.

(** [replace] on a text with the anchor leaves the new text in it. *)
Lemma replace_from_present (old new s : string) :
  old ≠ "" → contains old s = true →
  ∃ a b, replace_from old new 0 s = a +:+ new +:+ b.
Proof.
  intros Hne. induction s as [|c s IH]; intros H.
  - simpl in H. rewrite orb_false_r in H.
    apply startswith_inv in H as [b Hb].
    destruct old; [now destruct Hne | discriminate].
  - cbn [replace_from]. destruct (startswith (String c s) old) eqn:E.
    + now exists "", (replace_from old new (String.length old - 1) s).
    + simpl in H. rewrite E in H. simpl in H.
      destruct (IH H) as (a & b & ->). now exists (String c a), b.
Qed.

Lemma replace_present (old new s : string) :
  old ≠ "" → contains old s = true →
  contains new (replace old new s) = true.
Proof.
  intros Hne H. destruct (replace_from_present old new s Hne H) as (a & b & E).
  destruct old; [now destruct Hne|]. unfold replace. rewrite E.
  apply contains_app.
Qed.

End PyStrFacts.

(** ** Reading text *)

Module TextIOFacts.
Import PyStr PyStrFacts TextIO Sessions.

Lemma read_text_inv bytes a : read_text bytes = Ok a → a = universal_newlines bytes.
Proof.
  unfold read_text, decode. destruct (utf8_error 0 bytes); [discriminate|].
  now intros [= <-].
Qed.

Lemma mem_char_app c a b : mem_char c (a +:+ b) = mem_char c a || mem_char c b.
Proof.
  induction a as [|x a IH]; [reflexivity|].
  rewrite app_cons. simpl. rewrite IH. apply orb_assoc.
Qed.

(** The text that comes back from a read has no carriage return. *)
Lemma universal_newlines_no_cr s : mem_char CR (universal_newlines s) = false.
Proof.
  remember (String.length s) as n eqn:Hn.
  revert s Hn. induction n as [n IH] using lt_wf_ind. intros s ->.
  destruct s as [|c s]; [reflexivity|]. simpl.
  destruct (Ascii.eqb c CR) eqn:Hc.
  - simpl. destruct s as [|c' s]; [reflexivity|].
    destruct (Ascii.eqb c' LF).
    + apply (IH (String.length s)); [simpl; lia | reflexivity].
    + apply (IH (String.length (String c' s))); [simpl; lia | reflexivity].
  - simpl. rewrite Hc. simpl.
    apply (IH (String.length s)); [simpl; lia | reflexivity].
Qed.

(** A text without carriage return is read as it is. *)
Lemma universal_newlines_id s : mem_char CR s = false → universal_newlines s = s.
Proof.
  induction s as [|c s IH]; [reflexivity|]. simpl. intros H.
  apply orb_false_iff in H as [Hc Hs]. rewrite Hc. now rewrite (IH Hs).
Qed.

Lemma read_text_no_cr bytes a : read_text bytes = Ok a → mem_char CR a = false.
Proof. intros H. rewrite (read_text_inv _ _ H). apply universal_newlines_no_cr. Qed.

Lemma read_text_plain bytes a :
  read_text bytes = Ok a → mem_char CR bytes = false → a = bytes.
Proof. intros H Hcr. rewrite (read_text_inv _ _ H). now apply universal_newlines_id. Qed.

(** [replace] brings in no character that is in neither text. *)
Lemma mem_char_replace_from c old new k s :
  mem_char c new = false → mem_char c s = false →
  mem_char c (replace_from old new k s) = false.
Proof.
  intros Hnew. revert k. induction s as [|x s IH]; intros k Hs; [reflexivity|].
  simpl in Hs. apply orb_false_iff in Hs as [Hx Hs].
  cbn [replace_from]. destruct k as [|k]; [|now apply IH].
  destruct (startswith (String x s) old).
  - rewrite mem_char_app, Hnew. now apply IH.
  - simpl. rewrite Hx. now apply IH.
Qed.

End TextIOFacts.

(** ** The effect monad *)

Lemma try_except_returns {S A} (m : M S A) (h : exn → M S A) (s : S) :
  (∀ e s', ∃ a s'', h e s' = (Ok a, s'')) →
  ∃ a s', try_except m h s = (Ok a, s').
Proof.
  intros Hh. unfold try_except. destruct (m s) as [[a|e] s']; eauto.
Qed.

(** ** The registrar *)

Module RegistrarFacts.
Import PyStr PyStrFacts Registrar Sessions TextIOFacts.

Lemma import_anchor_nonempty : import_anchor ≠ "".
Proof. discriminate. Qed.

(** The three ways a call can go. *)
Lemma create_tool_render_fails fn purpose url host key e w :
  function_code fn purpose url host key = Raise e →
  create_tool fn purpose url host key w = (Ok (failure_message e), w).
Proof.
  intros H. unfold create_tool, try_except, create_tool_body, bind, lift.
  now rewrite H.
Qed.

Lemma create_tool_no_agent fn purpose url host key code w :
  function_code fn purpose url host key = Ok code →
  files w !! "agent.py" = None →
  create_tool fn purpose url host key w =
    (Ok (failure_message
           (mk_exn FileNotFoundError "[Errno 2] No such file or directory: 'agent.py'")),
     perform (EvAppend "tools.py" (code +:+ nl)) w).
Proof.
  intros H Ha. unfold create_tool, try_except, create_tool_body, bind, lift.
  rewrite H. unfold append_file, read_file. cbn [files perform apply_event].
  rewrite lookup_insert_ne by discriminate. now rewrite Ha.
Qed.

Lemma create_tool_unreadable fn purpose url host key code bytes e w :
  function_code fn purpose url host key = Ok code →
  files w !! "agent.py" = Some bytes →
  TextIO.read_text bytes = Raise e →
  create_tool fn purpose url host key w =
    (Ok (failure_message e), perform (EvAppend "tools.py" (code +:+ nl)) w).
Proof.
  intros H Ha Hr. unfold create_tool, try_except, create_tool_body, bind, lift.
  rewrite H. unfold append_file, read_file. cbn [files perform apply_event].
  rewrite lookup_insert_ne by discriminate. now rewrite Ha, Hr.
Qed.

Lemma create_tool_ok fn purpose url host key code bytes agent_code w :
  function_code fn purpose url host key = Ok code →
  files w !! "agent.py" = Some bytes →
  TextIO.read_text bytes = Ok agent_code →
  create_tool fn purpose url host key w =
    (Ok (success_message fn),
     perform (EvWrite "agent.py" (patch_agent fn agent_code))
       (perform (EvRead "agent.py")
          (perform (EvAppend "tools.py" (code +:+ nl)) w))).
Proof.
  intros H Ha Hr. unfold create_tool, try_except, create_tool_body, bind, lift.
  rewrite H. unfold append_file, read_file. cbn [files perform apply_event].
  rewrite lookup_insert_ne by discriminate. now rewrite Ha, Hr.
Qed.

(** A call that reports success has rendered the definition and read
    agent.py. *)
Lemma create_tool_success_inv fn purpose url host key w w' :
  create_tool fn purpose url host key w = (Ok (success_message fn), w') →
  ∃ code bytes agent_code,
    function_code fn purpose url host key = Ok code ∧
    files w !! "agent.py" = Some bytes ∧
    TextIO.read_text bytes = Ok agent_code.
Proof.
  intros H.
  destruct (function_code fn purpose url host key) as [code|e] eqn:Hc.
  - destruct (files w !! "agent.py") as [bytes|] eqn:Ha.
    + destruct (TextIO.read_text bytes) as [a|e] eqn:Hr; [eauto 6|].
      rewrite (create_tool_unreadable _ _ _ _ _ _ _ _ _ Hc Ha Hr) in H.
      discriminate H.
    + rewrite (create_tool_no_agent _ _ _ _ _ _ _ Hc Ha) in H.
      discriminate H.
  - rewrite (create_tool_render_fails _ _ _ _ _ _ _ Hc) in H.
    discriminate H.
Qed.

(** *** Patching agent.py *)

Lemma name_in_import fn : contains fn ("from tools import " +:+ fn) = true.
Proof.
  rewrite <- (app_nil_r fn) at 2. apply contains_app.
Qed.

(** A roster that already imports the name is left as it is. *)
Lemma patch_agent_imported fn a :
  contains ("from tools import " +:+ fn) a = true → patch_agent fn a = a.
Proof.
  intros H. unfold patch_agent. rewrite H. cbn [negb].
  now rewrite (contains_trans _ _ _ (name_in_import fn) H).
Qed.

(** When the import line is rewritten, the name is in the text by the
    time the second guard looks for it, and the list literal is not
    touched. *)
Lemma patch_agent_import_only fn a :
  contains import_anchor a = true →
  contains ("from tools import " +:+ fn) a = false →
  patch_agent fn a = replace import_anchor ("from tools import " +:+ fn +:+ ",") a ∧
  contains ("from tools import " +:+ fn) (patch_agent fn a) = true.
Proof.
  intros Ha Hn. unfold patch_agent. rewrite Hn. cbn [negb].
  pose proof (replace_present import_anchor ("from tools import " +:+ fn +:+ ",") a
                import_anchor_nonempty Ha) as Hnew.
  assert (Himp : contains ("from tools import " +:+ fn)
                   (replace import_anchor ("from tools import " +:+ fn +:+ ",") a) = true).
  { refine (contains_trans _ _ _ _ Hnew).
    rewrite <- app_assoc. apply (contains_app "" _ ","). }
  rewrite (contains_trans _ _ _ (name_in_import fn) Himp). cbn [negb]. auto.
Qed.

(** The list literal is patched only when nothing was done to the
    import line: no import anchor in the text, and the name nowhere
    in it. *)
Lemma patch_agent_list_only fn a :
  contains import_anchor a = false →
  contains fn a = false →
  patch_agent fn a =
    replace list_anchor ("tools=[" +:+ nl +:+ "                " +:+ fn +:+ ",") a.
Proof.
  intros Ha Hn. unfold patch_agent.
  destruct (contains ("from tools import " +:+ fn) a) eqn:Hi.
  - now rewrite (contains_trans _ _ _ (name_in_import fn) Hi) in Hn.
  - cbn [negb]. rewrite (replace_absent _ _ _ import_anchor_nonempty Ha).
    now rewrite Hn.
Qed.

(** Patching brings no carriage return into a text that has none,
    unless the name has one. *)
Lemma patch_agent_no_cr fn a :
  mem_char TextIO.CR fn = false → mem_char TextIO.CR a = false →
  mem_char TextIO.CR (patch_agent fn a) = false.
Proof.
  intros Hfn Ha. unfold patch_agent.
  assert (H1 : mem_char TextIO.CR
                 (if negb (contains ("from tools import " +:+ fn) a)
                  then replace import_anchor ("from tools import " +:+ fn +:+ ",") a
                  else a) = false).
  { destruct (negb _); [|exact Ha]. unfold replace, import_anchor.
    apply mem_char_replace_from; [|exact Ha].
    rewrite !mem_char_app, Hfn. reflexivity. }
  cbv zeta. destruct (negb (contains fn _)); [|exact H1].
  unfold replace, list_anchor. apply mem_char_replace_from; [|exact H1].
  rewrite !mem_char_app, Hfn. reflexivity.
Qed.

(** With the import anchor in the text, patching twice is patching once. *)
Lemma patch_agent_idempotent fn a :
  contains import_anchor a = true →
  patch_agent fn (patch_agent fn a) = patch_agent fn a.
Proof.
  intros Ha. destruct (contains ("from tools import " +:+ fn) a) eqn:Hn.
  - now rewrite !(patch_agent_imported fn a Hn).
  - destruct (patch_agent_import_only fn a Ha Hn) as [_ H].
    now apply patch_agent_imported.
Qed.

(** *** Registering a name *)

(** C1, evaluated on [example_world] for the fresh name [foo]: the call
    reports success, the store holds one definition of [foo] and the
    roster one import of it, but the list literal [tools=[...]] is
    written back as it was, without an entry for [foo]. *)
Theorem create_tool_fresh_name :
  contains "foo" ("import os" +:+ nl) = false ∧
  contains "foo" example_agent = false ∧
  ∃ w, create_tool "foo" "Look things up." (Some example_url) None
         default_api_key_env example_world = (Ok (success_message "foo"), w) ∧
       occurrences "async def foo(" <$> files w !! "tools.py" = Some 1 ∧
       files w !! "agent.py" =
         Some ("from tools import foo, get_weather, search_web" +:+ nl +:+
               "agent = Agent(tools=[get_weather, search_web])" +:+ nl).
Proof.
  split; [reflexivity|]. split; [reflexivity|].
  eexists. split; [vm_compute; reflexivity|].
  split; vm_compute; reflexivity.
Qed.

(** Against C2 as stated: registering [foo] a second time is not
    rejected; the call reports success again and the store changes,
    ending with two definitions of [foo]. *)
Lemma create_tool_twice_counterexample :
  ∃ w1 w2,
    create_tool "foo" "Look things up." (Some example_url) None
      default_api_key_env example_world = (Ok (success_message "foo"), w1) ∧
    create_tool "foo" "Look things up." (Some example_url) None
      default_api_key_env w1 = (Ok (success_message "foo"), w2) ∧
    files w2 !! "tools.py" ≠ files w1 !! "tools.py" ∧
    occurrences "async def foo(" <$> files w2 !! "tools.py" = Some 2.
Proof.
  eexists. eexists. split; [vm_compute; reflexivity|].
  split; [vm_compute; reflexivity|]. split.
  - intros H. apply (f_equal (fmap (occurrences "async def foo("))) in H.
    vm_compute in H. discriminate H.
  - vm_compute. reflexivity.
Qed.

(** The rendered text defines a function of that name. *)
Lemma function_code_defines fn purpose url host key code :
  function_code fn purpose url host key = Ok code →
  contains ("async def " +:+ fn +:+ "(context: RunContext, query: str) -> str:") code = true.
Proof.
  unfold function_code. destruct (host_value url host) as [h|e]; [|discriminate].
  intros [= <-]. unfold template.
  apply contains_skip, contains_skip, contains_skip.
  rewrite <- !(app_assoc "async def "), <- (app_assoc ("async def " +:+ fn)).
  apply contains_here.
Qed.

(** C2, as the code has it: a call with a name that has been
    registered is not rejected, whatever its other arguments.  After
    a successful registration, a further call with the same name
    whose host renders, on the roster the first call wrote (read by
    the second as UTF-8 text), reports success again and appends its
    definition after the first one, so that the store holds two
    definitions of the name; it writes back the patch of the roster
    it read, and when the roster first read held the import anchor
    and the name has no carriage return, that leaves the roster as
    the first call wrote it. *)
Theorem create_tool_twice fn purpose url host key purpose' url' host' key'
    code' roster roster' w w1 :
  create_tool fn purpose url host key w = (Ok (success_message fn), w1) →
  function_code fn purpose' url' host' key' = Ok code' →
  files w1 !! "agent.py" = Some roster →
  TextIO.read_text roster = Ok roster' →
  ∃ code w2,
    function_code fn purpose url host key = Ok code ∧
    files w1 !! "tools.py" = Some (default "" (files w !! "tools.py") +:+ code +:+ nl) ∧
    create_tool fn purpose' url' host' key' w1 = (Ok (success_message fn), w2) ∧
    files w2 !! "tools.py" =
      Some ((default "" (files w !! "tools.py") +:+ code +:+ nl) +:+ code' +:+ nl) ∧
    contains ("async def " +:+ fn +:+ "(context: RunContext, query: str) -> str:") code
      = true ∧
    contains ("async def " +:+ fn +:+ "(context: RunContext, query: str) -> str:") code'
      = true ∧
    files w2 !! "agent.py" = Some (patch_agent fn roster') ∧
    (∀ bytes a, files w !! "agent.py" = Some bytes → TextIO.read_text bytes = Ok a →
                contains import_anchor a = true → mem_char TextIO.CR fn = false →
                files w2 !! "agent.py" = files w1 !! "agent.py").
Proof.
  intros H Hc' Hroster Hread.
  destruct (create_tool_success_inv _ _ _ _ _ _ _ H) as (code & bytes & a & Hc & Ha & Hr).
  rewrite (create_tool_ok _ _ _ _ _ _ _ _ _ Hc Ha Hr) in H.
  injection H as <-.
  set (w1 := perform _ _) in *.
  assert (Ht1 : files w1 !! "tools.py" =
                Some (default "" (files w !! "tools.py") +:+ code +:+ nl)).
  { subst w1. cbn [files perform apply_event].
    rewrite lookup_insert_ne by discriminate. apply lookup_insert_eq. }
  assert (Ha1 : files w1 !! "agent.py" = Some (patch_agent fn a)).
  { subst w1. cbn [files perform apply_event]. apply lookup_insert_eq. }
  assert (Hw : roster = patch_agent fn a) by congruence.
  exists code. eexists. split; [exact Hc|]. split; [exact Ht1|].
  split; [apply (create_tool_ok _ _ _ _ _ _ _ _ _ Hc' Hroster Hread)|].
  split; [|split; [|split; [|split]]].
  - cbn [files perform apply_event].
    rewrite lookup_insert_ne by discriminate.
    rewrite lookup_insert_eq, Ht1. reflexivity.
  - exact (function_code_defines _ _ _ _ _ _ Hc).
  - exact (function_code_defines _ _ _ _ _ _ Hc').
  - cbn [files perform apply_event]. apply lookup_insert_eq.
  - intros bytes0 a0 Hb0 Hr0 Hanchor Hfn.
    rewrite Ha in Hb0. injection Hb0 as <-. rewrite Hr in Hr0. injection Hr0 as <-.
    cbn [files perform apply_event]. rewrite lookup_insert_eq.
    fold w1. rewrite Hroster. f_equal.
    assert (Hplain : roster' = roster).
    { apply (read_text_plain _ _ Hread). subst roster.
      apply patch_agent_no_cr; [exact Hfn | exact (read_text_no_cr _ _ Hr)]. }
    rewrite Hplain, Hw. now apply patch_agent_idempotent.
Qed.

Lemma create_tool_twice_witness :
  let first := create_tool "foo" "Look things up." (Some example_url) None
                 default_api_key_env in
  let second := create_tool "foo" "Look things up again." None (Some "api.example.com")
                  (Some "OTHER_KEY") in
  let w1 := (first example_world).2 in
  let roster := "from tools import foo, get_weather, search_web" +:+ nl +:+
                "agent = Agent(tools=[get_weather, search_web])" +:+ nl in
  let code' := template "foo" "Look things up again." placeholder_url "OTHER_KEY"
                 "api.example.com" in
  ∃ code w2,
    function_code "foo" "Look things up." (Some example_url) None default_api_key_env
      = Ok code ∧
    files w1 !! "tools.py" =
      Some (default "" (files example_world !! "tools.py") +:+ code +:+ nl) ∧
    second w1 = (Ok (success_message "foo"), w2) ∧
    files w2 !! "tools.py" =
      Some ((default "" (files example_world !! "tools.py") +:+ code +:+ nl)
            +:+ code' +:+ nl) ∧
    contains ("async def " +:+ "foo" +:+ "(context: RunContext, query: str) -> str:") code
      = true ∧
    contains ("async def " +:+ "foo" +:+ "(context: RunContext, query: str) -> str:") code'
      = true ∧
    files w2 !! "agent.py" = Some (patch_agent "foo" roster) ∧
    (∀ bytes a, files example_world !! "agent.py" = Some bytes →
                TextIO.read_text bytes = Ok a →
                contains import_anchor a = true → mem_char TextIO.CR "foo" = false →
                files w2 !! "agent.py" = files w1 !! "agent.py").
Proof.
  intros first second w1 roster code'.
  apply (create_tool_twice "foo" "Look things up." (Some example_url) None
           default_api_key_env "Look things up again." None (Some "api.example.com")
           (Some "OTHER_KEY") code' roster roster example_world w1).
  - vm_compute. reflexivity.
  - reflexivity.
  - vm_compute. reflexivity.
  - vm_compute. reflexivity.
Defined.

(** *** Deriving the host *)

Lemma host_value_short url :
  length (split "/" url) < 3 →
  host_value (Some url) None = Raise (mk_exn IndexError "list index out of range").
Proof.
  intros H. unfold host_value.
  now rewrite (lookup_ge_None_2 (split "/" url) 2) by lia.
Qed.

(** C3: with no [api_host] and a URL of fewer than three [/]-separated
    segments the call returns the failure message of the index error
    and changes neither file (the working directory and the record of
    file operations are as before). *)
Theorem create_tool_short_url fn purpose url key w :
  length (split "/" url) < 3 →
  create_tool fn purpose (Some url) None key w =
    (Ok ("❌ Failed to create function: list index out of range"), w).
Proof.
  intros H.
  rewrite (create_tool_render_fails fn purpose (Some url) None key
             (mk_exn IndexError "list index out of range")).
  - reflexivity.
  - unfold function_code. now rewrite (host_value_short url H).
Qed.

Lemma create_tool_short_url_witness :
  length (split "/" "notaurl") < 3 ∧
  create_tool "foo" "Look things up." (Some "notaurl") None default_api_key_env
    example_world =
    (Ok ("❌ Failed to create function: list index out of range"), example_world).
Proof.
  split; [vm_compute; lia|].
  apply (create_tool_short_url "foo" "Look things up." "notaurl").
  vm_compute. lia.
Defined.

(** C4: for the URL [https://api.example.com/v1/data] and no
    [api_host], the host is [api.example.com], the rendered definition
    carries it in its host header, and that definition is what the
    call appends to the store. *)
Theorem create_tool_derived_host fn purpose key w :
  host_value (Some example_url) None = Ok "api.example.com" ∧
  function_code fn purpose (Some example_url) None key =
    Ok (template fn purpose example_url (format key) "api.example.com") ∧
  contains (host_header "api.example.com")
    (template fn purpose example_url (format key) "api.example.com") = true ∧
  files (create_tool fn purpose (Some example_url) None key w).2 !! "tools.py" =
    Some (default "" (files w !! "tools.py") +:+
          template fn purpose example_url (format key) "api.example.com" +:+ nl).
Proof.
  assert (Hc : function_code fn purpose (Some example_url) None key =
               Ok (template fn purpose example_url (format key) "api.example.com"))
    by reflexivity.
  split; [reflexivity|]. split; [exact Hc|]. split.
  - unfold template.
    repeat first [apply contains_here | apply contains_skip].
  - destruct (files w !! "agent.py") as [bytes|] eqn:Ha.
    + destruct (TextIO.read_text bytes) as [a|e] eqn:Hr.
      * rewrite (create_tool_ok _ _ _ _ _ _ _ _ _ Hc Ha Hr).
        cbn [snd files perform apply_event].
        rewrite lookup_insert_ne by discriminate. apply lookup_insert_eq.
      * rewrite (create_tool_unreadable _ _ _ _ _ _ _ _ _ Hc Ha Hr).
        cbn [snd files perform apply_event]. apply lookup_insert_eq.
    + rewrite (create_tool_no_agent _ _ _ _ _ _ _ Hc Ha).
      cbn [snd files perform apply_event]. apply lookup_insert_eq.
Qed.

(** *** Optional URL and host *)

(** C5, evaluated where both [api_url] and [api_host] are left out
    (their defaults): the placeholder is taken for the URL, but the
    host expression calls [split] on [None]; the call returns the
    failure message and writes nothing. *)
Theorem create_tool_no_url_no_host fn purpose key w :
  create_tool fn purpose None None key w =
    (Ok "❌ Failed to create function: 'NoneType' object has no attribute 'split'", w).
Proof.
  rewrite (create_tool_render_fails fn purpose None None key
             (mk_exn AttributeError "'NoneType' object has no attribute 'split'"));
    reflexivity.
Qed.

(** A non-empty [api_host] is taken as it is, whatever the URL. *)
Lemma host_value_given url c h : host_value url (Some (String c h)) = Ok (String c h).
Proof. reflexivity. Qed.

(** With a host given and no URL, the definition is rendered with the
    placeholder and the call succeeds when agent.py is there. *)
Lemma create_tool_placeholder fn purpose c h key bytes agent_code w :
  files w !! "agent.py" = Some bytes →
  TextIO.read_text bytes = Ok agent_code →
  ∃ w', create_tool fn purpose None (Some (String c h)) key w =
          (Ok (success_message fn), w') ∧
        files w' !! "tools.py" =
          Some (default "" (files w !! "tools.py") +:+
                template fn purpose "https://example.com/api" (format key) (String c h)
                +:+ nl).
Proof.
  intros Ha Hr. eexists. split.
  - apply (create_tool_ok fn purpose None (Some (String c h)) key
             (template fn purpose "https://example.com/api" (format key) (String c h))
             bytes agent_code w); [reflexivity | exact Ha | exact Hr].
  - cbn [files perform apply_event].
    rewrite lookup_insert_ne by discriminate. apply lookup_insert_eq.
Qed.

(** *** Order of the two writes *)

Lemma replay_snoc evs ev fs : replay (evs ++ [ev]) fs = apply_event ev (replay evs fs).
Proof. unfold replay. now rewrite foldl_app. Qed.

(** Every file operation is recorded: the directory is the replay of
    the record. *)
Lemma perform_replay ev w fs :
  files w = replay (log w) fs →
  files (perform ev w) = replay (log (perform ev w)) fs.
Proof. intros H. cbn [files log perform]. now rewrite replay_snoc, H. Qed.

(** C6: the record of file operations of a call describes what it did
    to the directory; a call that renders its definition first appends
    it to tools.py, and right after that operation the store holds the
    new definition while the roster is as before; and at whatever point
    of the record the call is cut short, either agent.py is still
    untouched or tools.py already holds the new definition. *)
Theorem create_tool_store_before_roster fn purpose url host key fs :
  let w := (create_tool fn purpose url host key {| files := fs; log := [] |}).2 in
  files w = replay (log w) fs ∧
  match function_code fn purpose url host key with
  | Ok code =>
      log w !! 0 = Some (EvAppend "tools.py" (code +:+ nl)) ∧
      replay (take 1 (log w)) fs !! "tools.py" =
        Some (default "" (fs !! "tools.py") +:+ code +:+ nl) ∧
      replay (take 1 (log w)) fs !! "agent.py" = fs !! "agent.py"
  | Raise _ => log w = []
  end ∧
  ∀ n, replay (take n (log w)) fs !! "agent.py" = fs !! "agent.py" ∨
       ∃ code, function_code fn purpose url host key = Ok code ∧
               replay (take n (log w)) fs !! "tools.py" =
                 Some (default "" (fs !! "tools.py") +:+ code +:+ nl).
Proof.
  destruct (function_code fn purpose url host key) as [code|e] eqn:Hc.
  - assert (Hcut : ∀ w' : world,
              w' = perform (EvAppend "tools.py" (code +:+ nl)) {| files := fs; log := [] |} →
              files w' = replay (log w') fs ∧
              (log w' !! 0 = Some (EvAppend "tools.py" (code +:+ nl)) ∧
               replay (take 1 (log w')) fs !! "tools.py" =
                 Some (default "" (fs !! "tools.py") +:+ code +:+ nl) ∧
               replay (take 1 (log w')) fs !! "agent.py" = fs !! "agent.py") ∧
              ∀ n, replay (take n (log w')) fs !! "agent.py" = fs !! "agent.py" ∨
                   ∃ code0, Ok code = Ok code0 ∧
                            replay (take n (log w')) fs !! "tools.py" =
                              Some (default "" (fs !! "tools.py") +:+ code0 +:+ nl)).
    { intros w' ->. split; [|split; [split; [|split]|]].
      * apply perform_replay. reflexivity.
      * reflexivity.
      * cbn. apply lookup_insert_eq.
      * cbn. now rewrite lookup_insert_ne by discriminate.
      * intros [|[|n]]; cbn; rewrite ?take_nil; cbn; left;
          rewrite ?lookup_insert_ne by discriminate; reflexivity. }
    destruct (fs !! "agent.py") as [bytes|] eqn:Ha;
      [destruct (TextIO.read_text bytes) as [a|e] eqn:Hr|].
    + rewrite (create_tool_ok fn purpose url host key code bytes a
                 {| files := fs; log := [] |} Hc Ha Hr).
      cbn [snd]. split; [|split; [split; [|split]|]].
      * repeat apply perform_replay. reflexivity.
      * reflexivity.
      * cbn. apply lookup_insert_eq.
      * cbn. rewrite lookup_insert_ne by discriminate. exact Ha.
      * intros [|[|[|n]]]; cbn; rewrite ?take_nil; cbn.
        -- left. exact Ha.
        -- left. rewrite lookup_insert_ne by discriminate. exact Ha.
        -- left. rewrite lookup_insert_ne by discriminate. exact Ha.
        -- right. exists code. split; [reflexivity|].
           rewrite lookup_insert_ne by discriminate. apply lookup_insert_eq.
    + rewrite (create_tool_unreadable fn purpose url host key code bytes e
                 {| files := fs; log := [] |} Hc Ha Hr).
      cbn [snd]. now apply Hcut.
    + rewrite (create_tool_no_agent fn purpose url host key code
                 {| files := fs; log := [] |} Hc Ha).
      cbn [snd]. now apply Hcut.
  - rewrite (create_tool_render_fails fn purpose url host key e
               {| files := fs; log := [] |} Hc).
    cbn [snd log files]. split; [reflexivity|]. split; [reflexivity|].
    intros n. left. now rewrite take_nil.
Qed.

End RegistrarFacts.

(** ** The in-memory lists *)

Module ListsFacts.
Import PyStr Lists.

Section FirstMatch.
Variables (t : string) (l2 : list todo_item) (x : todo_item).
Hypothesis Hx : task x = t.

(** The loop stops at the first item carrying the text. *)
Lemma first_task_app l1 :
  Forall (λ y, task y ≠ t) l1 → first_task t (l1 ++ x :: l2) = Some x.
Proof using Hx.
  unfold first_task. induction 1 as [|y l Hy _ IH]; simpl.
  - rewrite bool_decide_true by exact Hx. reflexivity.
  - rewrite bool_decide_false by exact Hy. exact IH.
Qed.

(** [list.remove] of that item takes out that very position. *)
Lemma list_remove_app l1 :
  Forall (λ y, task y ≠ t) l1 → list_remove x (l1 ++ x :: l2) = Some (l1 ++ l2).
Proof using Hx.
  induction 1 as [|y l Hy _ IH]; simpl.
  - rewrite decide_True by reflexivity. reflexivity.
  - rewrite decide_False by congruence. rewrite IH. reflexivity.
Qed.

Lemma mark_done_app l1 :
  Forall (λ y, task y ≠ t) l1 →
  mark_done t (l1 ++ x :: l2) = Some (l1 ++ {| task := t; done := true |} :: l2).
Proof using Hx.
  induction 1 as [|y l Hy _ IH]; simpl.
  - rewrite decide_True by exact Hx. rewrite Hx. reflexivity.
  - rewrite decide_False by exact Hy. rewrite IH. reflexivity.
Qed.
End FirstMatch.

(** C8: on the empty list, add "buy milk" and list shows one entry not
    done; after complete it is shown done; after remove the list is
    reported empty.  And in any list whose first item with text [t] is
    [x], remove takes out [x] alone and complete marks [x] alone,
    whatever follows it. *)
Theorem manage_todo_first_match (c : ascii) (t' : string) (g : globals)
    (l1 l2 : list todo_item) (x : todo_item) :
  let t := String c t' in
  todo_list g = l1 ++ x :: l2 →
  task x = t →
  Forall (λ y, task y ≠ t) l1 →
  (let g1 := then_ (manage_todo "add" (Some "buy milk")) module_globals in
   let g2 := then_ (manage_todo "complete" (Some "buy milk")) g1 in
   let g3 := then_ (manage_todo "remove" (Some "buy milk")) g2 in
   manage_todo "list" None g1 =
     (Ok ("📋 Your To-Do List:" +:+ nl +:+ "1. [❌] buy milk"), g1) ∧
   manage_todo "list" None g2 =
     (Ok ("📋 Your To-Do List:" +:+ nl +:+ "1. [✔️] buy milk"), g2) ∧
   manage_todo "list" None g3 = (Ok "📝 Your to-do list is empty.", g3)) ∧
  manage_todo "remove" (Some t) g =
    (Ok ("🗑️ Task removed: '" +:+ t +:+ "'"),
     {| notes_memory := notes_memory g; todo_list := l1 ++ l2 |}) ∧
  manage_todo "complete" (Some t) g =
    (Ok ("✅ Task completed: '" +:+ t +:+ "'"),
     {| notes_memory := notes_memory g;
        todo_list := l1 ++ {| task := t; done := true |} :: l2 |}).
Proof.
  intros t Hl Hx Hbefore. subst t. split; [|split].
  - repeat split; vm_compute; reflexivity.
  - unfold manage_todo, try_except, manage_todo_body.
    rewrite decide_False by discriminate. rewrite decide_True by reflexivity.
    unfold bind, get, store_todo, ret. cbv beta iota. rewrite Hl.
    rewrite (first_task_app _ l2 x Hx l1 Hbefore).
    rewrite (list_remove_app _ l2 x Hx l1 Hbefore). reflexivity.
  - unfold manage_todo, try_except, manage_todo_body.
    rewrite !decide_False by discriminate. rewrite decide_True by reflexivity.
    unfold bind, get, store_todo, ret. cbv beta iota. rewrite Hl.
    rewrite (mark_done_app _ l2 x Hx l1 Hbefore). reflexivity.
Qed.

Lemma manage_todo_first_match_witness :
  let walk := {| task := "walk dog"; done := false |} in
  let milk := {| task := "buy milk"; done := false |} in
  let g := {| notes_memory := None; todo_list := [walk; milk; milk] |} in
  manage_todo "remove" (Some "buy milk") g =
    (Ok ("🗑️ Task removed: '" +:+ "buy milk" +:+ "'"),
     {| notes_memory := None; todo_list := [walk; milk] |}) ∧
  manage_todo "complete" (Some "buy milk") g =
    (Ok ("✅ Task completed: '" +:+ "buy milk" +:+ "'"),
     {| notes_memory := None;
        todo_list := [walk; {| task := "buy milk"; done := true |}; milk] |}).
Proof.
  intros walk milk g.
  refine (proj2 (manage_todo_first_match "b" "uy milk" g [walk] [milk] milk _ _ _)).
  - reflexivity.
  - reflexivity.
  - repeat constructor. discriminate.
Defined.

(** *** The notes list is never bound *)

Ltac run_body :=
  unfold bind, get, ret, raise, load_notes, store_notes, store_todo;
  cbv beta iota.

(** [manage_todo] does not touch the name [notes_memory]. *)
Lemma manage_todo_keeps_notes action tsk g :
  notes_memory (then_ (manage_todo action tsk) g) = notes_memory g.
Proof.
  unfold then_, manage_todo, try_except, manage_todo_body.
  repeat case_decide; run_body; repeat case_match; simplify_eq; reflexivity.
Qed.

(** With the name unbound, no call of [manage_notes] changes the state. *)
Lemma manage_notes_keeps_unbound action note g :
  notes_memory g = None → then_ (manage_notes action note) g = g.
Proof.
  intros H. unfold then_, manage_notes, try_except, manage_notes_body.
  repeat case_decide; run_body; rewrite ?H; repeat case_match; simplify_eq;
    reflexivity.
Qed.

Lemma run_calls_unbound cs g :
  notes_memory g = None → notes_memory (run_calls cs g) = None.
Proof.
  revert g. induction cs as [|c cs IH]; intros g H; [exact H|].
  apply IH. destruct c as [action note|action tsk]; cbn [run_call].
  - now rewrite manage_notes_keeps_unbound.
  - now rewrite manage_todo_keeps_notes.
Qed.

(** C10: the module never binds [notes_memory], so after any session of
    calls a call of [manage_notes] that gets as far as the list
    ("add" or "remove" with a non-empty note, "list", "clear") returns
    the error message for the undefined name and leaves the state as it
    was. *)
Theorem manage_notes_undefined cs action note :
  ((action = "add" ∨ action = "remove") ∧ truthy note = true) ∨
  action = "list" ∨ action = "clear" →
  let g := run_calls cs module_globals in
  notes_memory g = None ∧
  manage_notes action note g =
    (Ok "❌ Error managing notes: name 'notes_memory' is not defined", g).
Proof.
  intros Hreach g.
  assert (Hg : notes_memory g = None) by now apply run_calls_unbound.
  split; [exact Hg|].
  unfold manage_notes, try_except, manage_notes_body.
  destruct Hreach as [[[-> | ->] Hnote] | [-> | ->]].
  - destruct note as [[|c n]|]; try discriminate Hnote.
    rewrite decide_True by reflexivity. run_body. now rewrite Hg.
  - destruct note as [[|c n]|]; try discriminate Hnote.
    rewrite decide_False by discriminate. rewrite decide_True by reflexivity.
    run_body. now rewrite Hg.
  - rewrite !decide_False by discriminate. rewrite decide_True by reflexivity.
    run_body. now rewrite Hg.
  - rewrite !decide_False by discriminate. rewrite decide_True by reflexivity.
    run_body. now rewrite Hg.
Qed.

Lemma manage_notes_undefined_witness :
  let g := run_calls [Todo "add" (Some "buy milk"); Notes "add" (Some "call mum")]
             module_globals in
  notes_memory g = None ∧
  manage_notes "list" None g =
    (Ok "❌ Error managing notes: name 'notes_memory' is not defined", g).
Proof.
  apply (manage_notes_undefined
           [Todo "add" (Some "buy milk"); Notes "add" (Some "call mum")] "list" None).
  right. left. reflexivity.
Defined.

End ListsFacts.

(** ** The mail sender *)

Module EmailFacts.
Import PyStr Email.

(** The handler written as a case analysis on the class. *)
Lemma send_email_handler_message e w :
  send_email_handler e w = (Ok (message_for e), w).
Proof. unfold send_email_handler, message_for, isinstance. now destruct (class_of e). Qed.

(** A server that lets the connection and the TLS upgrade through and
    answers the login with [e]: the body raises [e] after these three
    calls. *)
Lemma send_email_login_refused to_email subject message cc c1 u c2 p e w :
  environ w !! "GMAIL_USER" = Some (String c1 u) →
  environ w !! "GMAIL_PASS" = Some (String c2 p) →
  smtp w (Connect "smtp.gmail.com" 587) = None →
  smtp w StartTLS = None →
  smtp w (Login (String c1 u) (String c2 p)) = Some e →
  send_email_body to_email subject message cc w =
    (Raise e,
     {| environ := environ w; smtp := smtp w;
        calls := calls w ++ [Connect "smtp.gmail.com" 587; StartTLS;
                             Login (String c1 u) (String c2 p)];
        as_string := as_string w |}).
Proof.
  intros Hu Hp H1 H2 H3. unfold send_email_body, bind, getenv.
  rewrite Hu, Hp. unfold call at 1. cbn [environ smtp calls as_string]. rewrite H1.
  unfold call at 1. cbn [environ smtp calls as_string]. rewrite H2.
  unfold call at 1. cbn [environ smtp calls as_string]. rewrite H3.
  now rewrite <- !(assoc_L (++)).
Qed.

(** C9: without both credentials the call returns the credentials
    message and makes no SMTP call; when the body raises, an
    authentication error gives the authentication message, another
    SMTP error the SMTP message, anything else the generic message;
    and the four messages differ from one another. *)
Theorem send_email_failure_messages to_email subject message cc w :
  (truthy (environ w !! "GMAIL_USER") = false ∨
   truthy (environ w !! "GMAIL_PASS") = false →
   send_email to_email subject message cc w = (Ok credentials_message, w)) ∧
  (∀ e w', send_email_body to_email subject message cc w = (Raise e, w') →
     send_email to_email subject message cc w =
       (Ok (match class_of e with
            | SMTPAuthenticationError => authentication_message
            | SMTPException => smtp_message e
            | _ => generic_message e
            end), w')) ∧
  (∀ e1 e2,
     credentials_message ≠ authentication_message ∧
     credentials_message ≠ smtp_message e1 ∧
     credentials_message ≠ generic_message e2 ∧
     authentication_message ≠ smtp_message e1 ∧
     authentication_message ≠ generic_message e2 ∧
     smtp_message e1 ≠ generic_message e2).
Proof.
  split; [|split].
  - intros H. unfold send_email, try_except, send_email_body, bind, getenv.
    cbv beta iota.
    destruct (environ w !! "GMAIL_USER") as [[|c1 u]|];
      destruct (environ w !! "GMAIL_PASS") as [[|c2 p]|];
      try reflexivity; destruct H; discriminate.
  - intros e w' H. unfold send_email, try_except. rewrite H.
    apply send_email_handler_message.
  - intros e1 e2. repeat split; discriminate.
Qed.

Lemma send_email_failure_messages_witness :
  send_email "you@example.com" "Hi" "Hello." None example_world =
    (Ok authentication_message,
     {| environ := environ example_world; smtp := refusing_server;
        calls := [Connect "smtp.gmail.com" 587; StartTLS; Login "me@gmail.com" "secret"];
        as_string := rendering |}).
Proof.
  refine (proj1 (proj2 (send_email_failure_messages
                          "you@example.com" "Hi" "Hello." None example_world))
            refusal _ _).
  apply (send_email_login_refused _ _ _ _ "m" "e@gmail.com" "s" "ecret");
    vm_compute; reflexivity.
Defined.

End EmailFacts.

(** ** Every tool returns a message *)

Module AllTools.

(** C7: each of the six tool functions returns a string whatever its
    arguments, the state it starts from and the behaviour of the
    outside world; what its body raises is turned into a message. *)
Theorem tools_return_a_message :
  (∀ strip city n, ∃ s, Web.get_weather strip city n = (Ok s, n)) ∧
  (∀ query n, ∃ s, Web.search_web query n = (Ok s, n)) ∧
  (∀ to_email subject message cc w,
     ∃ s w', Email.send_email to_email subject message cc w = (Ok s, w')) ∧
  (∀ action note g, ∃ s g', Lists.manage_notes action note g = (Ok s, g')) ∧
  (∀ action tsk g, ∃ s g', Lists.manage_todo action tsk g = (Ok s, g')) ∧
  (∀ fn purpose url host key w,
     ∃ s w', Registrar.create_tool fn purpose url host key w = (Ok s, w')).
Proof.
  repeat split.
  - intros strip city n.
    unfold Web.get_weather, try_except, Web.get_weather_body, bind, ret.
    destruct (Web.requests_get n _) as [r|e]; [case_decide|]; eauto.
  - intros query n. unfold Web.search_web, try_except, Web.search_web_body, bind, ret.
    destruct (Web.search_run n query) as [r|e]; eauto.
  - intros. apply try_except_returns. intros e s'.
    rewrite EmailFacts.send_email_handler_message. eauto.
  - intros. apply try_except_returns. unfold ret. eauto.
  - intros. apply try_except_returns. unfold ret. eauto.
  - intros. apply try_except_returns. unfold ret. eauto.
Qed.

End AllTools.

(** * Further properties *)

(** ** Splitting and joining *)

Module SplitFacts.
Import PyStr PyStrFacts Sessions.

Lemma split_nonempty c s : split c s ≠ [].
Proof.
  destruct s as [|a s]; simpl; [discriminate|].
  destruct (Ascii.eqb a c); [discriminate|]. now destruct (split c s).
Qed.

Lemma split_sep c s : split c (String c s) = "" :: split c s.
Proof. simpl. now rewrite Ascii.eqb_refl. Qed.

(** A leading run without the separator is the first segment. *)
Lemma split_segment c a s :
  mem_char c a = false → split c (a +:+ String c s) = a :: split c s.
Proof.
  induction a as [|x a IH]; intros H.
  - rewrite app_nil_l. apply split_sep.
  - simpl in H. apply orb_false_iff in H as [Hx Ha].
    rewrite app_cons. simpl. rewrite Hx, (IH Ha). reflexivity.
Qed.

Lemma split_segment_sep c a s :
  mem_char c a = false → split c (a +:+ String c "" +:+ s) = a :: split c s.
Proof. apply split_segment. Qed.

Lemma split_last c a : mem_char c a = false → split c a = [a].
Proof.
  induction a as [|x a IH]; intros H; [reflexivity|].
  simpl in H. apply orb_false_iff in H as [Hx Ha].
  simpl. rewrite Hx, (IH Ha). reflexivity.
Qed.

Lemma join_cons sep x l : l ≠ [] → join sep (x :: l) = x +:+ sep +:+ join sep l.
Proof. destruct l; [intros H; now destruct H | reflexivity]. Qed.

(** X1: joining the segments of a split with the separator gives the
    text back, for every text and separator. *)
Theorem join_split c s : join (String c "") (split c s) = s.
Proof.
  induction s as [|a s IH]; [reflexivity|]. simpl.
  pose proof (split_nonempty c s) as Hne.
  destruct (Ascii.eqb a c) eqn:E.
  - apply Ascii.eqb_eq in E as ->.
    rewrite (join_cons _ _ _ Hne), IH. reflexivity.
  - destruct (split c s) as [|h t]; [now destruct Hne|].
    destruct t as [|h' t].
    + simpl in IH. simpl. now rewrite IH.
    + rewrite join_cons by discriminate.
      rewrite join_cons in IH by discriminate.
      rewrite app_cons. now rewrite IH.
Qed.

(** No segment of a split holds the separator. *)
Lemma split_segments_clean c s : Forall (λ seg, mem_char c seg = false) (split c s).
Proof.
  induction s as [|a s IH]; simpl; [repeat constructor|].
  destruct (Ascii.eqb a c) eqn:E; [now constructor|].
  destruct (split c s) as [|h t]; [repeat constructor; simpl; now rewrite E|].
  inversion IH as [|? ? Hh Ht]; subst. constructor; [|exact Ht].
  simpl. now rewrite E, Hh.
Qed.

End SplitFacts.

(** ** More on the registrar *)

Module RegistrarMore.
Import PyStr PyStrFacts TextIOFacts Registrar RegistrarFacts Sessions SplitFacts.

Lemma list_anchor_nonempty : list_anchor ≠ "".
Proof. discriminate. Qed.

Lemma store_after ev w :
  store (perform ev w) =
    match ev with
    | EvAppend "tools.py" text => store w +:+ text
    | EvWrite "tools.py" text => text
    | _ => store w
    end.
Proof.
  unfold store. destruct ev as [path text|path|path text]; cbn [files perform apply_event].
  - destruct (decide (path = "tools.py")) as [->|Hne].
    + now rewrite lookup_insert_eq.
    + rewrite lookup_insert_ne by exact Hne.
      repeat (case_match; try reflexivity); congruence.
  - reflexivity.
  - destruct (decide (path = "tools.py")) as [->|Hne].
    + now rewrite lookup_insert_eq.
    + rewrite lookup_insert_ne by exact Hne.
      repeat (case_match; try reflexivity); congruence.
Qed.

(** *** The host taken from the URL *)

(** X2: in a URL whose first three [/]-separated segments are [a],
    [b] and [h], followed by nothing or by a [/] and anything, the
    derived host is [h]: for [scheme://host/path] it is the network
    location, port and user name included, and for a URL written
    without its scheme it is a path segment. *)
Theorem host_value_third_segment a b h tail :
  mem_char "/" a = false → mem_char "/" b = false → mem_char "/" h = false →
  tail = "" ∨ (∃ r, tail = "/" +:+ r) →
  host_value (Some (a +:+ "/" +:+ b +:+ "/" +:+ h +:+ tail)) None = Ok h.
Proof.
  intros Ha Hb Hh Htail. unfold host_value.
  rewrite (split_segment_sep "/" a _ Ha), (split_segment_sep "/" b _ Hb).
  destruct Htail as [-> | [r ->]].
  - rewrite app_nil_r, (split_last "/" h Hh). reflexivity.
  - rewrite (split_segment_sep "/" h r Hh). reflexivity.
Qed.

Lemma host_value_third_segment_witness :
  host_value (Some "https://me@api.example.com:8443/v1/data") None
    = Ok "me@api.example.com:8443" ∧
  host_value (Some "api.example.com/v1/data") None = Ok "data".
Proof.
  split.
  - apply (host_value_third_segment "https:" "" "me@api.example.com:8443" "/v1/data");
      [reflexivity | reflexivity | reflexivity | right; now exists "v1/data"].
  - apply (host_value_third_segment "api.example.com" "v1" "data" "");
      [reflexivity | reflexivity | reflexivity | now left].
Defined.

(** *** When a call succeeds *)


(** X4: a non-empty [api_host] is used as it is, whatever the
    URL (absent, empty or malformed): the definition is rendered with
    that host and with the URL or, failing one, the placeholder, and
    the call succeeds when agent.py exists and holds UTF-8 text. *)
Theorem create_tool_host_given fn purpose url c h key bytes agent_code w :
  files w !! "agent.py" = Some bytes →
  TextIO.read_text bytes = Ok agent_code →
  function_code fn purpose url (Some (String c h)) key =
    Ok (template fn purpose (or_else url placeholder_url) (format key) (String c h)) ∧
  ∃ w', create_tool fn purpose url (Some (String c h)) key w =
          (Ok (success_message fn), w') ∧
        store w' = store w +:+
          template fn purpose (or_else url placeholder_url) (format key) (String c h)
          +:+ nl.
Proof.
  intros Ha Hr. split; [reflexivity|]. eexists. split.
  - apply (create_tool_ok fn purpose url (Some (String c h)) key
             (template fn purpose (or_else url placeholder_url) (format key) (String c h))
             bytes agent_code w); [reflexivity | exact Ha | exact Hr].
  - rewrite !store_after. reflexivity.
Qed.

Lemma create_tool_host_given_witness :
  function_code "foo" "Look things up." (Some "notaurl") (Some "api.example.com")
    default_api_key_env =
    Ok (template "foo" "Look things up." "notaurl" "RAPIDAPI_KEY" "api.example.com") ∧
  ∃ w', create_tool "foo" "Look things up." (Some "notaurl") (Some "api.example.com")
          default_api_key_env example_world = (Ok (success_message "foo"), w') ∧
        store w' = store example_world +:+
          template "foo" "Look things up." "notaurl" "RAPIDAPI_KEY" "api.example.com"
          +:+ nl.
Proof.
  apply (create_tool_host_given "foo" "Look things up." (Some "notaurl")
           "a" "pi.example.com" default_api_key_env example_agent example_agent
           example_world); reflexivity.
Defined.

(** X5: when agent.py is missing the call reports the failure to
    open it, but only after the definition has been appended: tools.py
    has grown and there is still no agent.py. *)
Theorem create_tool_missing_agent fn purpose url host key code w :
  function_code fn purpose url host key = Ok code →
  files w !! "agent.py" = None →
  ∃ w', create_tool fn purpose url host key w =
          (Ok "❌ Failed to create function: [Errno 2] No such file or directory: 'agent.py'",
           w') ∧
        store w' = store w +:+ code +:+ nl ∧
        files w' !! "agent.py" = None.
Proof.
  intros Hc Ha. eexists. split; [|split].
  - rewrite (create_tool_no_agent _ _ _ _ _ _ _ Hc Ha). reflexivity.
  - rewrite store_after. reflexivity.
  - cbn [files perform apply_event]. now rewrite lookup_insert_ne by discriminate.
Qed.

Lemma create_tool_missing_agent_witness :
  let w := {| files := ∅; log := [] |} in
  ∃ w', create_tool "foo" "Look things up." (Some example_url) None default_api_key_env w =
          (Ok "❌ Failed to create function: [Errno 2] No such file or directory: 'agent.py'",
           w') ∧
        store w' = store w +:+
          template "foo" "Look things up." example_url "RAPIDAPI_KEY" "api.example.com"
          +:+ nl ∧
        files w' !! "agent.py" = None.
Proof.
  intros w.
  apply (create_tool_missing_agent "foo" "Look things up." (Some example_url) None
           default_api_key_env); reflexivity.
Defined.

(** *** What a call does to the roster *)

Lemma agent_after fn purpose url host key code bytes a w :
  function_code fn purpose url host key = Ok code →
  files w !! "agent.py" = Some bytes →
  TextIO.read_text bytes = Ok a →
  ∃ w', create_tool fn purpose url host key w = (Ok (success_message fn), w') ∧
        files w' !! "agent.py" = Some (patch_agent fn a) ∧
        store w' = store w +:+ code +:+ nl.
Proof.
  intros Hc Ha Hr. eexists.
  split; [apply (create_tool_ok _ _ _ _ _ _ _ _ _ Hc Ha Hr)|]. split.
  - cbn [files perform apply_event]. apply lookup_insert_eq.
  - rewrite !store_after. reflexivity.
Qed.

(** In what follows [a] is agent.py as a call reads it: its bytes
    decoded as UTF-8, every line end an LF. *)

(** X6: for a roster that, as read, holds the import anchor and
    does not yet import the name, a successful call rewrites the
    import anchors and nothing else: the new roster is the text read
    with [from tools import] replaced by [from tools import NAME,],
    it imports the name, and the step that patches the list literal
    is not taken. *)
Theorem create_tool_patches_import_only fn purpose url host key code bytes a w :
  function_code fn purpose url host key = Ok code →
  files w !! "agent.py" = Some bytes →
  TextIO.read_text bytes = Ok a →
  contains import_anchor a = true →
  contains ("from tools import " +:+ fn) a = false →
  ∃ w' a',
    create_tool fn purpose url host key w = (Ok (success_message fn), w') ∧
    files w' !! "agent.py" = Some a' ∧
    a' = replace "from tools import" ("from tools import " +:+ fn +:+ ",") a ∧
    contains ("from tools import " +:+ fn +:+ ",") a' = true.
Proof.
  intros Hc Ha Hr Hanchor Hfresh.
  destruct (agent_after _ _ _ _ _ _ _ _ _ Hc Ha Hr) as (w' & Hrun & Hagent & _).
  destruct (patch_agent_import_only fn a Hanchor Hfresh) as [Hpatch _].
  exists w', (patch_agent fn a). split; [exact Hrun|]. split; [exact Hagent|].
  split; [exact Hpatch|]. rewrite Hpatch.
  apply (replace_present import_anchor _ a import_anchor_nonempty Hanchor).
Qed.

Lemma create_tool_patches_import_only_witness :
  let bytes := "from tools import get_weather" +:+ String TextIO.CR nl +:+
               "agent = Agent(tools=[get_weather])" +:+ String TextIO.CR nl in
  let a := "from tools import get_weather" +:+ nl +:+
           "agent = Agent(tools=[get_weather])" +:+ nl in
  let w := {| files := <["agent.py" := bytes]> ∅; log := [] |} in
  ∃ w' a',
    create_tool "foo" "Look things up." (Some example_url) None default_api_key_env w
      = (Ok (success_message "foo"), w') ∧
    files w' !! "agent.py" = Some a' ∧
    a' = replace "from tools import" ("from tools import " +:+ "foo" +:+ ",") a ∧
    contains ("from tools import " +:+ "foo" +:+ ",") a' = true.
Proof.
  intros bytes a w.
  apply (create_tool_patches_import_only "foo" "Look things up." (Some example_url) None
           default_api_key_env
           (template "foo" "Look things up." example_url "RAPIDAPI_KEY" "api.example.com")
           bytes a w);
    reflexivity.
Defined.

(** X7: for a roster that, as read, is without the import anchor
    and without the name, a successful call patches the list literal:
    the new roster is the text read with [tools=[] replaced by the
    opening bracket, a line break, sixteen spaces, the name and a
    comma; when the roster has a list literal the entry is in it
    afterwards. *)
Theorem create_tool_patches_list_only fn purpose url host key code bytes a w :
  function_code fn purpose url host key = Ok code →
  files w !! "agent.py" = Some bytes →
  TextIO.read_text bytes = Ok a →
  contains import_anchor a = false →
  contains fn a = false →
  let entry := "tools=[" +:+ nl +:+ "                " +:+ fn +:+ "," in
  ∃ w' a',
    create_tool fn purpose url host key w = (Ok (success_message fn), w') ∧
    files w' !! "agent.py" = Some a' ∧
    a' = replace "tools=[" entry a ∧
    (contains "tools=[" a = true → contains entry a' = true).
Proof.
  intros Hc Ha Hr Hanchor Hfresh entry.
  destruct (agent_after _ _ _ _ _ _ _ _ _ Hc Ha Hr) as (w' & Hrun & Hagent & _).
  exists w', (patch_agent fn a). split; [exact Hrun|]. split; [exact Hagent|].
  rewrite (patch_agent_list_only fn a Hanchor Hfresh). split; [reflexivity|].
  intros Hlist. apply (replace_present list_anchor _ a list_anchor_nonempty Hlist).
Qed.

Lemma create_tool_patches_list_only_witness :
  let a := "import tools" +:+ nl +:+ "agent = Agent(tools=[])" +:+ nl in
  let w := {| files := <["agent.py" := a]> ∅; log := [] |} in
  ∃ w' a',
    create_tool "foo" "Look things up." (Some example_url) None default_api_key_env w
      = (Ok (success_message "foo"), w') ∧
    files w' !! "agent.py" = Some a' ∧
    a' = replace "tools=[" ("tools=[" +:+ nl +:+ "                " +:+ "foo" +:+ ",") a ∧
    (contains "tools=[" a = true →
     contains ("tools=[" +:+ nl +:+ "                " +:+ "foo" +:+ ",") a' = true).
Proof.
  intros a w.
  apply (create_tool_patches_list_only "foo" "Look things up." (Some example_url) None
           default_api_key_env
           (template "foo" "Look things up." example_url "RAPIDAPI_KEY" "api.example.com")
           a a w);
    reflexivity.
Defined.

(** X8: the guards look for the name as a substring.  When
    the roster, as read, already holds [from tools import ] followed
    by the name, be it as the beginning of a longer name, a successful
    call writes back the text it read, with no entry for the name,
    while the definition is appended to the store and success is
    reported; a roster without carriage return is thus left exactly
    as it was. *)
Theorem create_tool_name_is_substring fn purpose url host key code bytes a w :
  function_code fn purpose url host key = Ok code →
  files w !! "agent.py" = Some bytes →
  TextIO.read_text bytes = Ok a →
  contains ("from tools import " +:+ fn) a = true →
  ∃ w', create_tool fn purpose url host key w = (Ok (success_message fn), w') ∧
        files w' !! "agent.py" = Some a ∧
        (mem_char TextIO.CR bytes = false → files w' !! "agent.py" = Some bytes) ∧
        store w' = store w +:+ code +:+ nl.
Proof.
  intros Hc Ha Hr Hsub.
  destruct (agent_after _ _ _ _ _ _ _ _ _ Hc Ha Hr) as (w' & Hrun & Hagent & Hstore).
  exists w'. rewrite (patch_agent_imported fn a Hsub) in Hagent.
  split; [exact Hrun|]. split; [exact Hagent|]. split; [|exact Hstore].
  intros Hcr. now rewrite Hagent, (read_text_plain _ _ Hr Hcr).
Qed.

Lemma create_tool_name_is_substring_witness :
  ∃ w', create_tool "get" "Fetch a page." (Some example_url) None default_api_key_env
          example_world = (Ok (success_message "get"), w') ∧
        files w' !! "agent.py" = Some example_agent ∧
        (mem_char TextIO.CR example_agent = false →
         files w' !! "agent.py" = Some example_agent) ∧
        store w' = store example_world +:+
          template "get" "Fetch a page." example_url "RAPIDAPI_KEY" "api.example.com"
          +:+ nl.
Proof.
  apply (create_tool_name_is_substring "get" "Fetch a page." (Some example_url) None
           default_api_key_env); reflexivity.
Defined.

Lemma patch_agent_no_anchor fn a :
  contains "from tools import" a = false → contains "tools=[" a = false →
  patch_agent fn a = a.
Proof.
  intros Himport Hlist. unfold patch_agent.
  rewrite (replace_absent import_anchor _ a import_anchor_nonempty Himport).
  cbv zeta.
  replace (if negb (contains ("from tools import " +:+ fn) a) then a else a)
    with a by now destruct (negb _).
  rewrite (replace_absent list_anchor _ a list_anchor_nonempty Hlist).
  now destruct (negb _).
Qed.

(** X9: for a roster that, as read, has neither anchor, the
    call writes back the text it read and still reports success; a
    roster without carriage return is thus left exactly as it was,
    and one with CR LF or CR line ends comes back with LF line ends
    and no other change. *)
Theorem create_tool_no_anchor fn purpose url host key code bytes a w :
  function_code fn purpose url host key = Ok code →
  files w !! "agent.py" = Some bytes →
  TextIO.read_text bytes = Ok a →
  contains "from tools import" a = false →
  contains "tools=[" a = false →
  ∃ w', create_tool fn purpose url host key w = (Ok (success_message fn), w') ∧
        files w' !! "agent.py" = Some (TextIO.universal_newlines bytes) ∧
        (mem_char TextIO.CR bytes = false → files w' !! "agent.py" = Some bytes).
Proof.
  intros Hc Ha Hr Himport Hlist.
  destruct (agent_after _ _ _ _ _ _ _ _ _ Hc Ha Hr) as (w' & Hrun & Hagent & _).
  rewrite (patch_agent_no_anchor fn a Himport Hlist) in Hagent.
  exists w'. split; [exact Hrun|]. split.
  - now rewrite Hagent, (read_text_inv _ _ Hr).
  - intros Hcr. now rewrite Hagent, (read_text_plain _ _ Hr Hcr).
Qed.

Lemma create_tool_no_anchor_witness :
  let bytes := "import tools" +:+ String TextIO.CR nl +:+ "x = 1" +:+ String TextIO.CR nl in
  let w := {| files := <["agent.py" := bytes]> ∅; log := [] |} in
  ∃ w', create_tool "foo" "Look things up." (Some example_url) None default_api_key_env w
          = (Ok (success_message "foo"), w') ∧
        files w' !! "agent.py" = Some (TextIO.universal_newlines bytes) ∧
        (mem_char TextIO.CR bytes = false → files w' !! "agent.py" = Some bytes).
Proof.
  intros bytes w.
  apply (create_tool_no_anchor "foo" "Look things up." (Some example_url) None
           default_api_key_env
           (template "foo" "Look things up." example_url "RAPIDAPI_KEY" "api.example.com")
           bytes ("import tools" +:+ nl +:+ "x = 1" +:+ nl) w);
    reflexivity.
Defined.

Lemma contains_empty s : contains "" s = true.
Proof. apply (contains_here "" s). Qed.

(** X10: the name is not checked.  With the empty name a
    call whose host renders, on an agent.py that holds UTF-8 text,
    renders and appends a definition that has no name after
    [async def], reports success, and never patches the list literal;
    in the text it read the import anchors are rewritten unless that
    text already holds [from tools import] followed by a space. *)
Theorem create_tool_empty_name purpose url host key code bytes a w :
  function_code "" purpose url host key = Ok code →
  files w !! "agent.py" = Some bytes →
  TextIO.read_text bytes = Ok a →
  ∃ w', create_tool "" purpose url host key w = (Ok (success_message ""), w') ∧
        store w' = store w +:+ code +:+ nl ∧
        contains ("async def (context: RunContext, query: str) -> str:") code = true ∧
        files w' !! "agent.py" =
          Some (if contains "from tools import " a then a
                else replace "from tools import" "from tools import ," a).
Proof.
  intros Hc Ha Hr.
  destruct (agent_after _ _ _ _ _ _ _ _ _ Hc Ha Hr) as (w' & Hrun & Hagent & Hstore).
  exists w'. split; [exact Hrun|]. split; [exact Hstore|]. split.
  - exact (function_code_defines "" _ _ _ _ _ Hc).
  - rewrite Hagent. f_equal. unfold patch_agent.
    change ("from tools import " +:+ "") with "from tools import ".
    change ("from tools import " +:+ "" +:+ ",") with "from tools import ,".
    destruct (contains "from tools import " a); cbn [negb]; now rewrite contains_empty.
Qed.

Lemma create_tool_empty_name_witness :
  let code := template "" "Look things up." example_url "RAPIDAPI_KEY" "api.example.com" in
  ∃ w', create_tool "" "Look things up." (Some example_url) None default_api_key_env
          example_world = (Ok (success_message ""), w') ∧
        store w' = store example_world +:+ code +:+ nl ∧
        contains ("async def (context: RunContext, query: str) -> str:") code = true ∧
        files w' !! "agent.py" =
          Some (if contains "from tools import " example_agent then example_agent
                else replace "from tools import" "from tools import ," example_agent).
Proof.
  intros code.
  apply (create_tool_empty_name "Look things up." (Some example_url) None
           default_api_key_env code example_agent example_agent example_world);
    reflexivity.
Defined.

(** *** Sessions of registrations *)

(** The three ways a call can leave the directory: untouched, with
    the definition appended (agent.py missing or unreadable), or with
    the definition appended and agent.py rewritten. *)
Lemma register_cases r w :
  register r w = w ∨
  (∃ code, register r w = perform (EvAppend "tools.py" (code +:+ nl)) w) ∨
  (∃ code bytes a, files w !! "agent.py" = Some bytes ∧
             register r w =
               perform (EvWrite "agent.py" (patch_agent (function_name r) a))
                 (perform (EvRead "agent.py")
                    (perform (EvAppend "tools.py" (code +:+ nl)) w))).
Proof.
  unfold register.
  destruct (function_code (function_name r) (purpose r) (api_url r) (api_host r)
              (api_key_env r)) as [code|e] eqn:Hc.
  - destruct (files w !! "agent.py") as [bytes|] eqn:Ha;
      [destruct (TextIO.read_text bytes) as [a|e] eqn:Hr|].
    + right. right. exists code, bytes, a. split; [reflexivity|].
      now rewrite (create_tool_ok _ _ _ _ _ _ _ _ _ Hc Ha Hr).
    + right. left. exists code.
      now rewrite (create_tool_unreadable _ _ _ _ _ _ _ _ _ Hc Ha Hr).
    + right. left. exists code.
      now rewrite (create_tool_no_agent _ _ _ _ _ _ _ Hc Ha).
  - left. now rewrite (create_tool_render_fails _ _ _ _ _ _ _ Hc).
Qed.

Lemma register_all_snoc rs r w :
  register_all (rs ++ [r]) w = register r (register_all rs w).
Proof. unfold register_all. now rewrite foldl_app. Qed.

Lemma register_all_cons r rs w :
  register_all (r :: rs) w = register_all rs (register r w).
Proof. reflexivity. Qed.

(** X11: no session of calls touches a file other than tools.py
    and agent.py. *)
Theorem register_all_frame rs w path :
  path ≠ "tools.py" → path ≠ "agent.py" →
  files (register_all rs w) !! path = files w !! path.
Proof.
  intros Ht Ha. induction rs as [|r rs IH] using rev_ind; [reflexivity|].
  rewrite register_all_snoc, <- IH.
  destruct (register_cases r (register_all rs w))
    as [-> | [(code & ->) | (code & bytes & a & _ & ->)]];
    cbn [files perform apply_event];
    rewrite ?lookup_insert_ne by congruence; reflexivity.
Qed.

Lemma register_all_frame_witness :
  let w := {| files := <["README.md" := "# dora"]> (files example_world); log := [] |} in
  let r := mk_request "foo" "Look things up." (Some example_url) None default_api_key_env in
  files (register_all [r; r] w) !! "README.md" = Some "# dora".
Proof.
  intros w r.
  apply (register_all_frame [r; r] w "README.md"); discriminate.
Defined.

(** X12: the store only ever grows at its end: after any session
    of calls the old text of tools.py is a prefix of the new one. *)
Theorem register_all_appends rs w :
  ∃ suffix, store (register_all rs w) = store w +:+ suffix.
Proof.
  induction rs as [|r rs IH] using rev_ind.
  - exists "". now rewrite app_nil_r.
  - destruct IH as [suffix IH]. rewrite register_all_snoc.
    destruct (register_cases r (register_all rs w))
      as [-> | [(code & ->) | (code & bytes & a & _ & ->)]];
      rewrite ?store_after, IH.
    + now exists suffix.
    + exists (suffix +:+ code +:+ nl). now rewrite app_assoc.
    + exists (suffix +:+ code +:+ nl). now rewrite app_assoc.
Qed.

(** X13: no session of calls creates or deletes agent.py:
    it exists afterwards exactly when it existed before. *)
Theorem register_all_keeps_agent rs w :
  is_Some (files (register_all rs w) !! "agent.py") ↔ is_Some (files w !! "agent.py").
Proof.
  induction rs as [|r rs IH] using rev_ind; [reflexivity|].
  rewrite register_all_snoc, <- IH.
  destruct (register_cases r (register_all rs w))
    as [-> | [(code & ->) | (code & bytes & a & Hs & ->)]];
    cbn [files perform apply_event].
  - reflexivity.
  - now rewrite lookup_insert_ne by discriminate.
  - rewrite lookup_insert_eq, Hs. split; eauto.
Qed.

Lemma register_repeat_fixed r code a n w :
  function_code (function_name r) (purpose r) (api_url r) (api_host r) (api_key_env r)
    = Ok code →
  TextIO.read_text a = Ok a →
  patch_agent (function_name r) a = a →
  files w !! "agent.py" = Some a →
  store (register_all (replicate n r) w) = store w +:+ copies n (code +:+ nl) ∧
  files (register_all (replicate n r) w) !! "agent.py" = Some a.
Proof.
  intros Hc Hread Hfix. revert w. induction n as [|n IH]; intros w Ha.
  - cbn. now rewrite app_nil_r.
  - destruct (agent_after _ _ _ _ _ _ _ _ _ Hc Ha Hread) as (w1 & Hrun & Hagent & Hstore).
    rewrite Hfix in Hagent.
    change (replicate (S n) r) with (r :: replicate n r).
    rewrite register_all_cons.
    assert (Hw1 : register r w = w1) by (unfold register; now rewrite Hrun).
    rewrite Hw1. destruct (IH w1 Hagent) as [IHs IHa].
    split; [|exact IHa]. rewrite IHs, Hstore. cbn [copies].
    now rewrite !app_assoc.
Qed.

(** X14: the same registration made [n + 1] times in a row, on a
    roster that holds the import anchor when read, and which the
    first call leaves as text that reads back as it is (UTF-8, no
    carriage return): the store gains [n + 1] copies of the
    definition, and the roster is what the first call made of the
    text it read. *)
Theorem register_repeat r code bytes a n w :
  function_code (function_name r) (purpose r) (api_url r) (api_host r) (api_key_env r)
    = Ok code →
  files w !! "agent.py" = Some bytes →
  TextIO.read_text bytes = Ok a →
  contains import_anchor a = true →
  TextIO.read_text (patch_agent (function_name r) a)
    = Ok (patch_agent (function_name r) a) →
  store (register_all (replicate (S n) r) w) = store w +:+ copies (S n) (code +:+ nl) ∧
  files (register_all (replicate (S n) r) w) !! "agent.py"
    = Some (patch_agent (function_name r) a).
Proof.
  intros Hc Ha Hr Hanchor Hback.
  destruct (agent_after _ _ _ _ _ _ _ _ _ Hc Ha Hr) as (w1 & Hrun & Hagent & Hstore).
  assert (Hw1 : register r w = w1) by (unfold register; now rewrite Hrun).
  change (replicate (S n) r) with (r :: replicate n r).
  rewrite register_all_cons, Hw1.
  destruct (register_repeat_fixed r code _ n w1 Hc Hback
              (patch_agent_idempotent _ a Hanchor) Hagent) as [Hs Hag].
  split; [|exact Hag]. rewrite Hs, Hstore. cbn [copies]. now rewrite !app_assoc.
Qed.

Lemma register_repeat_witness :
  let r := mk_request "foo" "Look things up." (Some example_url) None default_api_key_env in
  let code := template "foo" "Look things up." example_url "RAPIDAPI_KEY" "api.example.com" in
  store (register_all (replicate 3 r) example_world)
    = store example_world +:+ copies 3 (code +:+ nl) ∧
  files (register_all (replicate 3 r) example_world) !! "agent.py"
    = Some (patch_agent "foo" example_agent).
Proof.
  intros r code.
  apply (register_repeat r code example_agent example_agent 2 example_world);
    reflexivity.
Defined.

End RegistrarMore.

(** ** More on the to-do list and the notes *)

Module ListsMore.
Import PyStr Lists ListsFacts Sessions.

Ltac todo_branch :=
  unfold manage_todo, try_except, manage_todo_body;
  rewrite ?decide_False by discriminate; rewrite ?decide_True by reflexivity;
  unfold bind, get, ret, raise, store_todo; cbv beta iota.

Lemma globals_eta g : {| notes_memory := notes_memory g; todo_list := todo_list g |} = g.
Proof. now destruct g. Qed.

(** *** Helpers on the list operations *)

Lemma first_task_in t l item : first_task t l = Some item → item ∈ l ∧ task item = t.
Proof.
  unfold first_task. intros H. apply find_some in H as [Hin Ht].
  split; [now apply list_elem_of_In | now apply bool_decide_eq_true in Ht].
Qed.

Lemma first_task_none t l : Forall (λ y, task y ≠ t) l → first_task t l = None.
Proof.
  unfold first_task. induction 1 as [|y l Hy _ IH]; [reflexivity|]. simpl.
  now rewrite bool_decide_false by exact Hy.
Qed.

Lemma mark_done_none t l : Forall (λ y, task y ≠ t) l → mark_done t l = None.
Proof.
  induction 1 as [|y l Hy _ IH]; [reflexivity|]. simpl.
  rewrite decide_False by exact Hy. now rewrite IH.
Qed.

Lemma list_remove_in (x : todo_item) l : x ∈ l → is_Some (list_remove x l).
Proof.
  induction 1 as [x l|x y l _ IH]; simpl.
  - rewrite decide_True by reflexivity. eauto.
  - destruct (decide (y = x)); [eauto|]. destruct IH as [l' ->]. simpl. eauto.
Qed.

Lemma list_remove_sub (x : todo_item) l l' : list_remove x l = Some l' → l' ⊆ l.
Proof.
  revert l'. induction l as [|y l IH]; intros l' H; simpl in H; [discriminate|].
  destruct (decide (y = x)).
  - injection H as <-. apply list_subseteq_cons, reflexivity.
  - destruct (list_remove x l) as [l''|]; [|discriminate].
    injection H as <-. intros z Hz. apply elem_of_cons in Hz as [->|Hz].
    + constructor.
    + constructor. now apply (IH l'' eq_refl).
Qed.

Lemma mark_done_texts t l l' : mark_done t l = Some l' → task <$> l' = task <$> l.
Proof.
  revert l'. induction l as [|y l IH]; intros l' H; simpl in H; [discriminate|].
  destruct (decide (task y = t)).
  - now injection H as <-.
  - destruct (mark_done t l) as [l''|]; [|discriminate].
    injection H as <-. cbn. f_equal. now apply IH.
Qed.

Lemma mark_done_again t l l' : mark_done t l = Some l' → mark_done t l' = Some l'.
Proof.
  revert l'. induction l as [|y l IH]; intros l' H; simpl in H; [discriminate|].
  destruct (decide (task y = t)) as [Hy|Hy].
  - injection H as <-. simpl. now rewrite decide_True by exact Hy.
  - destruct (mark_done t l) as [l''|]; [|discriminate].
    injection H as <-. simpl. rewrite decide_False by exact Hy.
    now rewrite (IH l'' eq_refl).
Qed.

(** *** Error and edge behaviour *)

(** X15: the body of [manage_todo] never raises: the item
    the loop has found is always there for [list.remove], so the
    handler and its error message are never reached. *)
Theorem manage_todo_body_returns action tsk g :
  ∃ s g', manage_todo_body action tsk g = (Ok s, g') ∧
          manage_todo action tsk g = (Ok s, g').
Proof.
  unfold manage_todo, try_except, manage_todo_body.
  repeat case_decide; unfold bind, get, ret, raise, store_todo; cbv beta iota;
    try (destruct tsk as [[|c t]|]); try (eexists; eexists; split; reflexivity).
  all: try (destruct (first_task _ _) as [item|] eqn:Hf;
            [apply first_task_in in Hf as [Hin _];
             destruct (list_remove_in item _ Hin) as [l' ->]|]).
  all: try destruct (mark_done _ _).
  all: try destruct (todo_list g).
  all: eexists; eexists; split; reflexivity.
Qed.

(** X16: "add", "remove" and "complete" without a task, or
    with the empty text, ask for one and change nothing. *)
Theorem manage_todo_without_task tsk g :
  truthy tsk = false →
  manage_todo "add" tsk g = (Ok "Please specify a task to add.", g) ∧
  manage_todo "remove" tsk g = (Ok "Please specify a task to remove.", g) ∧
  manage_todo "complete" tsk g = (Ok "Please specify a task to mark as completed.", g).
Proof.
  intros H. destruct tsk as [[|c t]|]; try discriminate H;
    repeat split; reflexivity.
Qed.

Lemma manage_todo_without_task_witness :
  manage_todo "add" (Some "") module_globals
    = (Ok "Please specify a task to add.", module_globals) ∧
  manage_todo "remove" (Some "") module_globals
    = (Ok "Please specify a task to remove.", module_globals) ∧
  manage_todo "complete" (Some "") module_globals
    = (Ok "Please specify a task to mark as completed.", module_globals).
Proof. apply (manage_todo_without_task (Some "") module_globals). reflexivity. Defined.

(** X17: "remove" and "complete" of a text no item carries
    report that the task was not found and change nothing. *)
Theorem manage_todo_not_found c t' g :
  let t := String c t' in
  Forall (λ y, task y ≠ t) (todo_list g) →
  manage_todo "remove" (Some t) g = (Ok ("⚠️ Task not found: '" +:+ t +:+ "'"), g) ∧
  manage_todo "complete" (Some t) g = (Ok ("⚠️ Task not found: '" +:+ t +:+ "'"), g).
Proof.
  intros t H. subst t. split; todo_branch.
  - now rewrite (first_task_none _ _ H).
  - now rewrite (mark_done_none _ _ H).
Qed.

Lemma manage_todo_not_found_witness :
  let g := {| notes_memory := None;
              todo_list := [{| task := "walk dog"; done := false |}] |} in
  manage_todo "remove" (Some "Walk dog") g
    = (Ok ("⚠️ Task not found: '" +:+ "Walk dog" +:+ "'"), g) ∧
  manage_todo "complete" (Some "Walk dog") g
    = (Ok ("⚠️ Task not found: '" +:+ "Walk dog" +:+ "'"), g).
Proof.
  intros g. apply (manage_todo_not_found "W" "alk dog" g).
  repeat constructor. discriminate.
Defined.

(** X18: an action other than the five names, compared by
    exact text, is answered with the list of valid actions and changes
    nothing. *)
Theorem manage_todo_invalid_action action tsk g :
  action ∉ ["add"; "remove"; "complete"; "list"; "clear"] →
  manage_todo action tsk g =
    (Ok "⚠️ Invalid action. Use 'add', 'remove', 'list', 'complete', or 'clear'.", g).
Proof.
  intros H. unfold manage_todo, try_except, manage_todo_body.
  rewrite !decide_False; [reflexivity|..]; intros ->; apply H; set_solver.
Qed.

Lemma manage_todo_invalid_action_witness :
  manage_todo "Add" (Some "buy milk") module_globals =
    (Ok "⚠️ Invalid action. Use 'add', 'remove', 'list', 'complete', or 'clear'.",
     module_globals).
Proof.
  apply (manage_todo_invalid_action "Add" (Some "buy milk") module_globals).
  intros H. repeat (apply elem_of_cons in H as [H|H]; [discriminate H|]).
  now apply elem_of_nil in H.
Defined.

(** *** Invariants and compositions *)

Lemma run_calls_snoc cs c g : run_calls (cs ++ [c]) g = run_call c (run_calls cs g).
Proof. unfold run_calls. now rewrite foldl_app. Qed.

Lemma mark_done_forall (P : string → Prop) t l l' :
  mark_done t l = Some l' →
  Forall (λ it, P (task it)) l → Forall (λ it, P (task it)) l'.
Proof.
  revert l'. induction l as [|y l IH]; intros l' H Hl; simpl in H; [discriminate|].
  inversion Hl as [|? ? Hy Hl']; subst.
  destruct (decide (task y = t)).
  - injection H as <-. now constructor.
  - destruct (mark_done t l) as [l''|]; [|discriminate].
    injection H as <-. constructor; [exact Hy | now apply IH].
Qed.

Lemma manage_todo_keeps_texts_nonempty action tsk g :
  Forall (λ it, task it ≠ "") (todo_list g) →
  Forall (λ it, task it ≠ "") (todo_list (then_ (manage_todo action tsk) g)).
Proof.
  intros H. unfold then_.
  destruct (decide (action = "add")) as [->|Hadd].
  { destruct tsk as [[|c t]|]; try exact H. todo_branch. cbn [snd todo_list].
    apply Forall_app. split; [exact H|]. repeat constructor. discriminate. }
  destruct (decide (action = "remove")) as [->|Hrem].
  { destruct tsk as [[|c t]|]; try exact H. todo_branch.
    destruct (first_task _ _) as [item|]; [|exact H].
    destruct (list_remove item (todo_list g)) as [l'|] eqn:Hr; [|exact H].
    cbn [snd todo_list]. rewrite Forall_forall in *. intros x Hx.
    apply H. now apply (list_remove_sub _ _ _ Hr). }
  destruct (decide (action = "complete")) as [->|Hcom].
  { destruct tsk as [[|c t]|]; try exact H. todo_branch.
    destruct (mark_done _ _) as [l'|] eqn:Hm; [|exact H].
    cbn [snd todo_list]. exact (mark_done_forall (λ s, s ≠ "") _ _ _ Hm H). }
  destruct (decide (action = "list")) as [->|Hlist].
  { assert (Hs : (manage_todo "list" tsk g).2 = g)
      by (todo_branch; now destruct (todo_list g)).
    now rewrite Hs. }
  destruct (decide (action = "clear")) as [->|Hclear].
  { constructor. }
  unfold manage_todo, try_except, manage_todo_body.
  now rewrite !decide_False by assumption.
Qed.

(** X19: through any session of calls, every item of the
    to-do list carries a non-empty text. *)
Theorem todo_texts_nonempty cs :
  Forall (λ it, task it ≠ "") (todo_list (run_calls cs module_globals)).
Proof.
  induction cs as [|c cs IH] using rev_ind; [constructor|].
  rewrite run_calls_snoc. destruct c as [action note|action tsk]; cbn [run_call].
  - now rewrite manage_notes_keeps_unbound by (apply run_calls_unbound; reflexivity).
  - now apply manage_todo_keeps_texts_nonempty.
Qed.

(** X20: adding a text no item carries and removing it
    again gives back the state there was. *)
Theorem manage_todo_add_remove c t' g :
  let t := String c t' in
  Forall (λ y, task y ≠ t) (todo_list g) →
  then_ (manage_todo "remove" (Some t)) (then_ (manage_todo "add" (Some t)) g) = g.
Proof.
  intros t H. subst t. unfold then_ at 2. todo_branch. cbn [snd].
  unfold then_. todo_branch. cbn [todo_list notes_memory].
  rewrite (first_task_app (String c t') [] (mk_item (String c t') false) eq_refl _ H).
  rewrite (list_remove_app (String c t') [] (mk_item (String c t') false) eq_refl _ H).
  cbn [snd notes_memory todo_list]. rewrite app_nil_r. apply globals_eta.
Qed.

Lemma manage_todo_add_remove_witness :
  let g := {| notes_memory := None;
              todo_list := [{| task := "walk dog"; done := true |}] |} in
  then_ (manage_todo "remove" (Some "buy milk"))
    (then_ (manage_todo "add" (Some "buy milk")) g) = g.
Proof.
  intros g. apply (manage_todo_add_remove "b" "uy milk" g).
  repeat constructor. discriminate.
Defined.

(** X21: when an item already carries the text, adding it
    again and then removing it takes out the older item, whatever its
    status, and leaves the new one, not done, at the end. *)
Theorem manage_todo_add_remove_older c t' g l1 x l2 :
  let t := String c t' in
  todo_list g = l1 ++ x :: l2 →
  task x = t →
  Forall (λ y, task y ≠ t) l1 →
  todo_list (then_ (manage_todo "remove" (Some t)) (then_ (manage_todo "add" (Some t)) g))
    = l1 ++ l2 ++ [{| task := t; done := false |}].
Proof.
  intros t Hl Hx H. subst t. unfold then_ at 2. todo_branch. cbn [snd].
  unfold then_. todo_branch. cbn [todo_list notes_memory].
  rewrite Hl, <- (assoc_L (++)). cbn [app].
  rewrite (first_task_app _ _ _ Hx _ H), (list_remove_app _ _ _ Hx _ H).
  reflexivity.
Qed.

Lemma manage_todo_add_remove_older_witness :
  let g := {| notes_memory := None;
              todo_list := [{| task := "walk dog"; done := false |};
                            {| task := "buy milk"; done := true |}] |} in
  todo_list (then_ (manage_todo "remove" (Some "buy milk"))
               (then_ (manage_todo "add" (Some "buy milk")) g))
    = [{| task := "walk dog"; done := false |}; {| task := "buy milk"; done := false |}].
Proof.
  intros g.
  apply (manage_todo_add_remove_older "b" "uy milk" g
           [{| task := "walk dog"; done := false |}]
           {| task := "buy milk"; done := true |} []).
  - reflexivity.
  - reflexivity.
  - repeat constructor. discriminate.
Defined.

(** X22: completing the same text twice leaves the
    state the first call made. *)
Theorem manage_todo_complete_idempotent tsk g :
  then_ (manage_todo "complete" tsk) (then_ (manage_todo "complete" tsk) g)
    = then_ (manage_todo "complete" tsk) g.
Proof.
  destruct tsk as [[|c t]|]; try reflexivity.
  unfold then_ at 2 3. todo_branch.
  destruct (mark_done (String c t) (todo_list g)) as [l'|] eqn:Hm; cbn [snd].
  - unfold then_. todo_branch. cbn [todo_list notes_memory].
    now rewrite (mark_done_again _ _ _ Hm).
  - unfold then_. todo_branch. now rewrite Hm.
Qed.

Lemma mark_done_forall2 t l l' :
  mark_done t l = Some l' →
  Forall2 (λ a b, task a = task b ∧ (done a = true → done b = true)) l l'.
Proof.
  revert l'. induction l as [|y l IH]; intros l' H; simpl in H; [discriminate|].
  destruct (decide (task y = t)).
  - injection H as <-. constructor; [now split|].
    apply Forall2_same_length_lookup_2; [reflexivity|].
    intros i a b Ha Hb. rewrite Ha in Hb. now injection Hb as <-.
  - destruct (mark_done t l) as [l''|]; [|discriminate].
    injection H as <-. constructor; [now split | now apply IH].
Qed.

(** X23: "complete" never adds, drops, reorders or
    renames an item, and never takes a done item back to not done. *)
Theorem manage_todo_complete_keeps tsk g :
  Forall2 (λ a b, task a = task b ∧ (done a = true → done b = true))
    (todo_list g) (todo_list (then_ (manage_todo "complete" tsk) g)).
Proof.
  assert (Hrefl : ∀ l : list todo_item,
             Forall2 (λ a b, task a = task b ∧ (done a = true → done b = true)) l l).
  { intros l. apply Forall2_same_length_lookup_2; [reflexivity|].
    intros i a b Ha Hb. rewrite Ha in Hb. now injection Hb as <-. }
  destruct tsk as [[|c t]|]; try apply Hrefl.
  unfold then_. todo_branch.
  destruct (mark_done (String c t) (todo_list g)) as [l'|] eqn:Hm; cbn [snd todo_list].
  - now apply (mark_done_forall2 _ _ _ Hm).
  - apply Hrefl.
Qed.

(** X24: whatever the session before and whatever the
    arguments, [manage_notes] answers with one of four texts (the two
    requests for a note, the list of valid actions, the error for the
    undefined name) and changes nothing. *)
Theorem manage_notes_messages cs action note :
  let g := run_calls cs module_globals in
  ∃ s, manage_notes action note g = (Ok s, g) ∧
       s ∈ ["Please specify a note to add.";
            "Please specify a note to remove.";
            "⚠️ Invalid action. Use 'add', 'remove', 'list', or 'clear'.";
            "❌ Error managing notes: name 'notes_memory' is not defined"].
Proof.
  intros g.
  assert (Hg : notes_memory g = None) by apply run_calls_unbound, eq_refl.
  unfold manage_notes, try_except, manage_notes_body.
  repeat case_decide; try (destruct note as [[|c n]|]);
    unfold bind, ret, raise, load_notes, store_notes; cbv beta iota; rewrite ?Hg;
    eexists; (split; [reflexivity|]); set_solver.
Qed.

End ListsMore.

(** ** More on the mail sender *)

Module EmailMore.
Import PyStr Email EmailFacts Sessions.

(** With both credentials set: the three calls up to the login, made
    until the server refuses one; then the rendering of the message;
    then the two remaining calls, again until one is refused. *)
Lemma send_email_session to_email subject message cc c1 u c2 p w :
  environ w !! "GMAIL_USER" = Some (String c1 u) →
  environ w !! "GMAIL_PASS" = Some (String c2 p) →
  send_email to_email subject message cc w =
    let state made := {| environ := environ w; smtp := smtp w;
                         calls := calls w ++ made; as_string := as_string w |} in
    let '(made, r) :=
      until_refused (smtp w)
        (take 3 (smtp_session (String c1 u) (String c2 p) to_email cc)) in
    match r, as_string w (message_of (String c1 u) to_email subject message cc) with
    | Some e, _ | None, Some e => (Ok (message_for e), state made)
    | None, None =>
        let '(made', r') :=
          until_refused (smtp w)
            (drop 3 (smtp_session (String c1 u) (String c2 p) to_email cc)) in
        (Ok (match r' with
             | None => "Email sent successfully to " +:+ to_email
             | Some e => message_for e
             end), state (made ++ made'))
    end.
Proof.
  intros Hu Hp. unfold send_email, try_except, send_email_body, bind, getenv.
  cbv beta iota. rewrite Hu, Hp.
  unfold smtp_session, message_of, until_refused, recipients, call, render, ret.
  cbn [environ smtp calls as_string take drop].
  repeat match goal with
         | |- context [smtp w ?c] =>
             destruct (smtp w c); cbn [environ smtp calls as_string app];
             [rewrite send_email_handler_message, <- ?(assoc_L (++)); reflexivity|]
         | |- context [as_string w ?m] =>
             destruct (as_string w m); cbn [environ smtp calls as_string app];
             [rewrite send_email_handler_message, <- ?(assoc_L (++)); reflexivity|]
         end.
  now rewrite <- !(assoc_L (++)).
Qed.

(** X25: with both credentials set, a message the [email]
    package renders and a server that lets the five calls through,
    the call reports the mail as sent, and the calls made are, in
    this order, the connection to smtp.gmail.com on port 587, the TLS
    upgrade, the login with the two credentials, the mail from the
    user to the recipient (and to the CC address when there is a
    non-empty one), and quit. *)
Theorem send_email_sent to_email subject message cc c1 u c2 p w :
  environ w !! "GMAIL_USER" = Some (String c1 u) →
  environ w !! "GMAIL_PASS" = Some (String c2 p) →
  as_string w (message_of (String c1 u) to_email subject message cc) = None →
  (∀ c, smtp w c = None) →
  send_email to_email subject message cc w =
    (Ok ("Email sent successfully to " +:+ to_email),
     {| environ := environ w; smtp := smtp w;
        calls := calls w ++
          [Connect "smtp.gmail.com" 587; StartTLS; Login (String c1 u) (String c2 p);
           Sendmail (String c1 u)
             (match cc with Some (String x y) => [to_email; String x y] | _ => [to_email] end);
           Quit];
        as_string := as_string w |}).
Proof.
  intros Hu Hp Hmsg Hok. rewrite (send_email_session _ _ _ _ _ _ _ _ _ Hu Hp).
  unfold smtp_session, until_refused. cbn [take drop]. rewrite !Hok, Hmsg.
  destruct cc as [[|x y]|]; reflexivity.
Qed.

Lemma send_email_sent_witness :
  send_email "you@example.com" "Hi" "Hello." (Some "boss@example.com")
    (mail_world accepting_server) =
    (Ok ("Email sent successfully to " +:+ "you@example.com"),
     {| environ := environ (mail_world accepting_server); smtp := accepting_server;
        calls := [Connect "smtp.gmail.com" 587; StartTLS; Login "me@gmail.com" "secret";
                  Sendmail "me@gmail.com" ["you@example.com"; "boss@example.com"];
                  Quit];
        as_string := rendering |}).
Proof.
  apply (send_email_sent "you@example.com" "Hi" "Hello." (Some "boss@example.com")
           "m" "e@gmail.com" "s" "ecret" (mail_world accepting_server));
    reflexivity.
Defined.

(** X29: when the [email] package refuses the message
    (a header value with an embedded header, for one), the call has
    already connected, upgraded and logged in; it returns the message
    for that exception, hands over no mail and does not quit. *)
Theorem send_email_not_rendered to_email subject message cc c1 u c2 p e w :
  environ w !! "GMAIL_USER" = Some (String c1 u) →
  environ w !! "GMAIL_PASS" = Some (String c2 p) →
  (∀ c, smtp w c = None) →
  as_string w (message_of (String c1 u) to_email subject message cc) = Some e →
  send_email to_email subject message cc w =
    (Ok (message_for e),
     {| environ := environ w; smtp := smtp w;
        calls := calls w ++
          [Connect "smtp.gmail.com" 587; StartTLS; Login (String c1 u) (String c2 p)];
        as_string := as_string w |}).
Proof.
  intros Hu Hp Hok Hmsg. rewrite (send_email_session _ _ _ _ _ _ _ _ _ Hu Hp).
  unfold smtp_session, until_refused. cbn [take drop]. now rewrite !Hok, Hmsg.
Qed.

Lemma send_email_not_rendered_witness :
  let to_email := "you@example.com" +:+ nl +:+ "Bcc: them@example.com" in
  let w := {| environ := environ (mail_world accepting_server); smtp := accepting_server;
              calls := []; as_string := header_checking |} in
  send_email to_email "Hi" "Hello." None w =
    (Ok ("An error occurred while sending email: " +:+
         "header value appears to contain an embedded header: " +:+
         "'you@example.com\nBcc: them@example.com'"),
     {| environ := environ w; smtp := accepting_server;
        calls := [Connect "smtp.gmail.com" 587; StartTLS; Login "me@gmail.com" "secret"];
        as_string := header_checking |}).
Proof.
  intros to_email w.
  apply (send_email_not_rendered to_email "Hi" "Hello." None "m" "e@gmail.com" "s" "ecret"
           (mk_exn HeaderParseError
              ("header value appears to contain an embedded header: " +:+
               "'you@example.com\nBcc: them@example.com'")) w);
    reflexivity.
Defined.

(** X26: whatever the environment and the server, the SMTP
    calls a call adds are an initial part of connect, TLS upgrade,
    login, mail, quit: a login is only made after the connection and
    the upgrade were asked for, mail is only handed over after a
    login, and no call is made twice. *)
Theorem send_email_calls_in_order to_email subject message cc w :
  ∃ k, calls (send_email to_email subject message cc w).2 =
         calls w ++ take k (smtp_session (default "" (environ w !! "GMAIL_USER"))
                              (default "" (environ w !! "GMAIL_PASS")) to_email cc).
Proof.
  destruct (environ w !! "GMAIL_USER") as [[|c1 u]|] eqn:Hu;
    [exists 0; unfold send_email, try_except, send_email_body, bind, getenv;
     cbv beta iota; rewrite Hu; cbn; now rewrite app_nil_r| |
     exists 0; unfold send_email, try_except, send_email_body, bind, getenv;
     cbv beta iota; rewrite Hu; cbn; now rewrite app_nil_r].
  destruct (environ w !! "GMAIL_PASS") as [[|c2 p]|] eqn:Hp;
    [exists 0; unfold send_email, try_except, send_email_body, bind, getenv;
     cbv beta iota; rewrite Hu, Hp; cbn; now rewrite app_nil_r| |
     exists 0; unfold send_email, try_except, send_email_body, bind, getenv;
     cbv beta iota; rewrite Hu, Hp; cbn; now rewrite app_nil_r].
  rewrite (send_email_session _ _ _ _ _ _ _ _ _ Hu Hp).
  cbn [default]. unfold smtp_session, until_refused. cbn [take drop].
  destruct (smtp w (Connect _ _)); [now exists 1|].
  destruct (smtp w StartTLS); [now exists 2|].
  destruct (smtp w (Login _ _)); [now exists 3|].
  destruct (as_string w _); [now exists 3|].
  destruct (smtp w (Sendmail _ _)); [now exists 4|].
  destruct (smtp w Quit); now exists 5.
Qed.

(** X27: when the server refuses the TLS upgrade, the call
    stops there: the message is the one for that exception and no
    login, hence no credential, is sent. *)
Theorem send_email_tls_refused to_email subject message cc c1 u c2 p e w :
  environ w !! "GMAIL_USER" = Some (String c1 u) →
  environ w !! "GMAIL_PASS" = Some (String c2 p) →
  smtp w (Connect "smtp.gmail.com" 587) = None →
  smtp w StartTLS = Some e →
  send_email to_email subject message cc w =
    (Ok (message_for e),
     {| environ := environ w; smtp := smtp w;
        calls := calls w ++ [Connect "smtp.gmail.com" 587; StartTLS];
        as_string := as_string w |}).
Proof.
  intros Hu Hp Hc Ht. rewrite (send_email_session _ _ _ _ _ _ _ _ _ Hu Hp).
  unfold smtp_session, until_refused. cbn [take drop]. now rewrite Hc, Ht.
Qed.

Lemma send_email_tls_refused_witness :
  send_email "you@example.com" "Hi" "Hello." None (mail_world tls_refusing_server) =
    (Ok ("Email sending failed: SMTP error - " +:+
         "STARTTLS extension not supported by server."),
     {| environ := environ (mail_world tls_refusing_server);
        smtp := tls_refusing_server;
        calls := [Connect "smtp.gmail.com" 587; StartTLS];
        as_string := rendering |}).
Proof.
  apply (send_email_tls_refused "you@example.com" "Hi" "Hello." None
           "m" "e@gmail.com" "s" "ecret"
           (mk_exn SMTPException "STARTTLS extension not supported by server.")
           (mail_world tls_refusing_server)); reflexivity.
Defined.

(** X28: when the message renders and the server takes the
    mail and then fails on quit, the call reports a failure, with a
    text that is not the success text, although the mail has been
    handed over. *)
Theorem send_email_quit_refused to_email subject message cc c1 u c2 p e w :
  environ w !! "GMAIL_USER" = Some (String c1 u) →
  environ w !! "GMAIL_PASS" = Some (String c2 p) →
  as_string w (message_of (String c1 u) to_email subject message cc) = None →
  (∀ c, c ≠ Quit → smtp w c = None) →
  smtp w Quit = Some e →
  send_email to_email subject message cc w =
    (Ok (message_for e),
     {| environ := environ w; smtp := smtp w;
        calls := calls w ++ smtp_session (String c1 u) (String c2 p) to_email cc;
        as_string := as_string w |}) ∧
  message_for e ≠ "Email sent successfully to " +:+ to_email.
Proof.
  intros Hu Hp Hmsg Hok Hq. split.
  - rewrite (send_email_session _ _ _ _ _ _ _ _ _ Hu Hp).
    unfold smtp_session, until_refused. cbn [take drop].
    rewrite !Hok by discriminate. now rewrite Hmsg, Hq.
  - unfold message_for. destruct (class_of e); discriminate.
Qed.

Lemma send_email_quit_refused_witness :
  let e := mk_exn SMTPException "Connection unexpectedly closed" in
  send_email "you@example.com" "Hi" "Hello." None (mail_world quit_failing_server) =
    (Ok (message_for e),
     {| environ := environ (mail_world quit_failing_server);
        smtp := quit_failing_server;
        calls := smtp_session "me@gmail.com" "secret" "you@example.com" None;
        as_string := rendering |}) ∧
  message_for e ≠ "Email sent successfully to " +:+ "you@example.com".
Proof.
  intros e.
  apply (send_email_quit_refused "you@example.com" "Hi" "Hello." None
           "m" "e@gmail.com" "s" "ecret" e (mail_world quit_failing_server)).
  - reflexivity.
  - reflexivity.
  - reflexivity.
  - intros [] H; try reflexivity. now destruct H.
  - reflexivity.
Defined.

End EmailMore.
